(** * screenshot.py: a model of the CloudGenix screenshot script

    The script logs into the controller UI with a headless browser, takes
    screenshots of a fixed list of pages for every site, element and
    interface named in a configuration file, and then writes a tree of
    Markdown files.  This development embeds the script's own control flow
    (the helpers [sanitize_filename], [is_int], [screenshot_page], the
    start-up checks, the capture loop and the Markdown emitter) and keeps the
    collaborators it calls (the browser driver, the SDK, the YAML loader, the
    builtin [int]) as an explicit [World] of oracles. *)

From Stdlib Require Import Ascii String ZArith List Lia Bool Sorted.
From stdpp Require Import base decidable option list strings gmap pretty.

Local Open Scope Z_scope.

(** ** Strings

    A Python [str] is modelled as a [string]; iterating over it yields its
    characters one by one. *)

Definition ESC : ascii := ascii_of_nat 27.
Definition LF : ascii := ascii_of_nat 10.
Definition NL : string := String LF EmptyString.
Definition DQ : string := String (ascii_of_nat 34) EmptyString.

(** [char in s] for a one-character [char]. *)
Fixpoint char_in (char : ascii) (s : string) : bool :=
  match s with
  | EmptyString => false
  | String a s' => if Ascii.eqb char a then true else char_in char s'
  end.

(** [s.lower()] on the ASCII letters; every other character is kept.  The
    script only compares lowered strings with ASCII literals ('class', 'id',
    'time' and the colour names), and no other character lowers to a letter
    of those. *)
Definition lower_char (c : ascii) : ascii :=
  let n := N_of_ascii c in
  if ((65 <=? n) && (n <=? 90))%N then ascii_of_N (n + 32) else c.

Fixpoint lower (s : string) : string :=
  match s with
  | EmptyString => EmptyString
  | String c s' => String (lower_char c) (lower s')
  end.

(** ** Filename sanitizer (lines 110-119) *)

Definition FILENAME_VALID_CHARS : string :=
  "-_.() abcdefghijklmnopqrstuvwxyzABCDEFGHIJKLMNOPQRSTUVWXYZ0123456789".

(** [''.join(char for char in file_name if char in FILENAME_VALID_CHARS)] *)
Fixpoint sanitize_filename (file_name : string) : string :=
  match file_name with
  | EmptyString => EmptyString
  | String char rest =>
      if char_in char FILENAME_VALID_CHARS
      then String char (sanitize_filename rest)
      else sanitize_filename rest
  end.

(** The allow-list as the specification words it: the six punctuation marks
    of '-_.() ', the ASCII letters and the ASCII digits, by character code. *)
Definition ascii_letter (c : ascii) : bool :=
  let n := N_of_ascii c in
  (((65 <=? n) && (n <=? 90)) || ((97 <=? n) && (n <=? 122)))%N.

Definition ascii_digit (c : ascii) : bool :=
  let n := N_of_ascii c in ((48 <=? n) && (n <=? 57))%N.

Definition allowed_punctuation (c : ascii) : bool :=
  match c with
  | "-" | "_" | "." | "(" | ")" | " " => true
  | _ => false
  end%char.

Definition allow_listed (c : ascii) : bool :=
  allowed_punctuation c || ascii_letter c || ascii_digit c.

(** The subsequence of [s] made of its allow-listed characters. *)
Definition allowed_subsequence (s : string) : string :=
  string_of_list_ascii (List.filter allow_listed (list_ascii_of_string s)).

(** ** Exceptions, outcomes and events *)

Inductive exn : Type :=
| TimeoutException
| IndexError
| ValueError (msg : string)
| FileNotFoundError (name : string)
| FileExistsError (name : string)
| NotADirectoryError (name : string)
| IsADirectoryError (name : string)
| YAMLError
| UnicodeDecodeError
| OverflowError.

(** How a piece of the script ends: it returns, an exception leaves it, or
    [sys.exit] was called. *)
Inductive outcome (A : Type) : Type :=
| Returned (a : A)
| Raised (e : exn)
| Exited (code : Z).
Arguments Returned {A} a.
Arguments Raised {A} e.
Arguments Exited {A} code.

Inductive wait_by : Type := By_CLASS_NAME | By_ID.

(** The calls the script makes on the outside world, in the order made.
    Driver calls are requests to the browser-automation library; what the
    library does with them is not part of the script.  In particular
    [DriverScreenshot f] is the request to save the page under [f]: the
    image is written by the library and is not among the files of the
    model, which are those the script opens itself.  Of the ways a driver
    call can fail, the model has the two that [screenshot_page] handles: the
    wait that times out and the lookup that finds no element. *)
Inductive event : Type :=
| Stdout (text : string)
| Sleep (secs : Z)
| DriverStart (options : list string)
| DriverHeaderOverrides (token : string)
| DriverImplicitlyWait (secs : Z)
| DriverGet (uri : string)
| DriverWait (by_ : wait_by) (value : string) (timeout : Z)
| DriverFind (xpath : string)
| DriverClick (xpath : string)
| DriverSetWindowSize (width height : Z)
| DriverScreenshot (filename : string)
| DriverClose.

Definition is_stdout (ev : event) : bool :=
  match ev with Stdout _ => true | _ => false end.

(** ** The file system seen through [pathlib] and [open]

    Paths are relative to the working directory.  A path string is cut at
    '/', empty and '.' components are dropped, and '..' steps to the parent.
    The working directory and its ancestors always exist.  Names are of
    any length: the limits of a file system on them are not modelled. *)

Fixpoint split_on (sep : ascii) (s : string) : list string :=
  match s with
  | EmptyString => [EmptyString]
  | String c s' =>
      if Ascii.eqb c sep then EmptyString :: split_on sep s'
      else match split_on sep s' with
           | [] => [String c EmptyString]
           | w :: ws => String c w :: ws
           end
  end.

Definition path : Type := list string.

Definition components (name : string) : list string :=
  List.filter (fun c => negb (String.eqb c "") && negb (String.eqb c "."))
              (split_on "/" name).

Definition enter (cur : path) (c : string) : path :=
  if String.eqb c ".." then
    match last cur with
    | None => [".."]
    | Some d => if String.eqb d ".." then cur ++ [".."] else removelast cur
    end
  else cur ++ [c].

Record filesystem : Type := mkFS {
  dirs : gset path;
  files : gmap path string
}.

Definition is_dir (fs : filesystem) (p : path) : bool :=
  forallb (String.eqb "..") p || bool_decide (p ∈ dirs fs).

Definition is_file (fs : filesystem) (p : path) : bool :=
  match files fs !! p with Some _ => true | None => false end.

(** [pathlib.Path(name).mkdir(parents=True, exist_ok=True)] *)
Fixpoint mkdir_from (name : string) (cur : path) (cs : list string)
    (fs : filesystem) : exn + filesystem :=
  match cs with
  | [] => inr fs
  | c :: cs' =>
      let nxt := enter cur c in
      if is_dir fs nxt then mkdir_from name nxt cs' fs
      else if is_file fs nxt then
        inl (match cs' with
             | [] => FileExistsError name
             | _ => NotADirectoryError name
             end)
      else mkdir_from name nxt cs' (mkFS ({[nxt]} ∪ dirs fs) (files fs))
  end.

(** [pathlib] names a path in its errors as it prints it: the components
    joined by '/'. *)
Definition mkdir_parents (name : string) (fs : filesystem) : exn + filesystem :=
  mkdir_from (String.concat "/" (components name)) [] (components name) fs.

(** Following the directory part of a path that is to be opened. *)
Fixpoint walk_dirs (name : string) (cur : path) (cs : list string)
    (fs : filesystem) : exn + path :=
  match cs with
  | [] => inr cur
  | c :: cs' =>
      let nxt := enter cur c in
      if is_dir fs nxt then walk_dirs name nxt cs' fs
      else if is_file fs nxt then inl (NotADirectoryError name)
      else inl (FileNotFoundError name)
  end.

(** [with open(name, 'w') as fd: fd.write(content)] *)
Definition open_write (name content : string) (fs : filesystem)
    : exn + filesystem :=
  let cs := components name in
  match last cs with
  | None => inl (IsADirectoryError name)
  | Some leaf =>
      match walk_dirs name [] (removelast cs) fs with
      | inl e => inl e
      | inr d =>
          let target := enter d leaf in
          if is_dir fs target then inl (IsADirectoryError name)
          else inr (mkFS (dirs fs) (<[target := content]> (files fs)))
      end
  end.

(** ** State of a run and the monad of script fragments *)

Record state : Type := mkState {
  trace : list event;
  fs : filesystem
}.

Definition M (A : Type) : Type := state -> outcome A * state.

Definition ret {A} (a : A) : M A := fun st => (Returned a, st).

Definition bind {A B} (m : M A) (k : A -> M B) : M B :=
  fun st =>
    match m st with
    | (Returned a, st') => k a st'
    | (Raised e, st') => (Raised e, st')
    | (Exited c, st') => (Exited c, st')
    end.

Notation "'let*' x ':=' m 'in' k" := (bind m (fun x => k))
  (at level 100, x name, m at next level, k at level 200, right associativity).
Notation "m ';;' k" := (bind m (fun _ => k))
  (at level 100, k at level 200, right associativity).

Definition raise {A} (e : exn) : M A := fun st => (Raised e, st).
Definition sys_exit {A} (code : Z) : M A := fun st => (Exited code, st).

Definition emit (ev : event) : M unit :=
  fun st => (Returned tt, mkState (trace st ++ [ev]) (fs st)).

(** The history of calls so far, for the oracles of the world. *)
Definition history : M (list event) := fun st => (Returned (trace st), st).

(** [try: m except E: handler], where [handles] picks the exceptions [E]. *)
Definition try_except {A} (m : M A) (handles : exn -> bool) (handler : M A)
    : M A :=
  fun st =>
    match m st with
    | (Raised e, st') => if handles e then handler st' else (Raised e, st')
    | r => r
    end.

Definition on_fs (op : filesystem -> exn + filesystem) : M unit :=
  fun st =>
    match op (fs st) with
    | inl e => (Raised e, st)
    | inr fs' => (Returned tt, mkState (trace st) fs')
    end.

(** [for x in l: acc = body(acc, x)] *)
Fixpoint for_fold {A S} (l : list A) (acc : S) (body : S -> A -> M S) : M S :=
  match l with
  | [] => ret acc
  | x :: l' => let* acc' := body acc x in for_fold l' acc' body
  end.

Definition for_each {A} (l : list A) (body : A -> M unit) : M unit :=
  for_fold l tt (fun _ x => body x).

(** The longest time, in whole seconds, that CPython can hold: it keeps a
    time as a signed 64-bit count of nanoseconds. *)
Definition PYTIME_MAX_SECONDS : Z := 9223372036.

(** [time.sleep(secs)] for an int: a length out of the range of times is
    refused with OverflowError when it is converted, a negative length
    with ValueError. *)
Definition time_sleep (secs : Z) : M unit :=
  if (secs <? - PYTIME_MAX_SECONDS) || (PYTIME_MAX_SECONDS <? secs)
  then raise OverflowError
  else if secs <? 0
  then raise (ValueError "sleep length must be non-negative")
  else emit (Sleep secs).

(** ** The world outside the script *)

(** A loaded YAML document, as far as the script looks into it. *)
#[warnings="-register-all"]
Inductive yaml : Type :=
| YScalar (s : string)
| YMapping (items : list (string * yaml)).

(** How opening and loading the configuration file ends: [open] or a read
    fails with an IOError of message [e]; the bytes read are no text in the
    encoding of the platform; the text is no YAML; or a document is
    loaded. *)
Inductive load_result : Type :=
| LoadIOError (e : string)
| LoadDecodeError
| LoadYAMLError
| Loaded (config : yaml).

(** An interface record as the SDK returns it. *)
Record interface : Type := mkInterface {
  iface_id : string;
  iface_name : string
}.

(** A value of a parameter that the script inspects with [isinstance]. *)
Inductive pyval : Type :=
| PyStr (s : string)
| PyInt (n : Z)
| PyNone.

Definition py_str (v : pyval) : string :=
  match v with
  | PyStr s => s
  | PyInt n => pretty n
  | PyNone => "None"
  end.

(** Everything the script reads from its environment or gets back from a
    collaborator.  The answers of the browser depend on the calls made so
    far, so those oracles take the history of events.

    - [open_config f]: [open(f, 'r')] followed by [yaml.safe_load], with
      the four ways it can end;
    - [config_lower_version_get c k]: the items, in order, of the mapping the
      cloudgenix_config helper finds under key [k] of [c];
    - [sites_n2id], [elements_n2id]: the lookup dicts built by the SDK;
    - [get_interfaces s e]: [sdk.extract_items(sdk.get.interfaces(s, e))];
    - [int_of_str v]: the builtin [int(v)] on a str, [None] when it raises
      [ValueError];
    - [wait_located h]: whether the element awaited by the last call of [h]
      shows up before the timeout;
    - [xpath_matches h]: how many elements the last lookup of [h] finds;
    - [elapsed h0 h1]: the formatted time between two points of the run.

    The helper and the SDK answer as they do when they find what they are
    asked for: a mapping under the key, records with an id and a name.
    What the script does with other answers is outside the model. *)
Record World : Type := mkWorld {
  environ : gmap string string;
  argv : list string;
  open_config : string -> load_result;
  config_lower_version_get : yaml -> string -> list (string * yaml);
  controller_region : string;
  sites_n2id : gmap string string;
  elements_n2id : gmap string string;
  get_interfaces : string -> string -> list interface;
  int_of_str : string -> option Z;
  wait_located : list event -> bool;
  xpath_matches : list event -> nat;
  elapsed : list event -> list event -> string
}.

(** ** Output helper (lines 25-49) *)

Definition red : string := String ESC "[0;31m".
Definition green : string := String ESC "[0;32m".
Definition yellow : string := String ESC "[1;33m".
Definition white : string := String ESC "[1;37m".
Definition nc : string := String ESC "[0m".

Definition ci_print_output (text end_ : string) (color : option string)
    : string :=
  match color with
  | Some c =>
      if String.eqb (lower c) "red" then red +:+ text +:+ end_ +:+ nc
      else if String.eqb (lower c) "yellow" then yellow +:+ text +:+ end_ +:+ nc
      else if String.eqb (lower c) "green" then green +:+ text +:+ end_ +:+ nc
      else if String.eqb (lower c) "white" then white +:+ text +:+ end_ +:+ nc
      else text +:+ end_
  | None => text +:+ end_
  end.

Definition ci_print (text end_ : string) (color : option string) : M unit :=
  emit (Stdout (ci_print_output text end_ color)).

Definition DEFAULT_IMPLICIT_WAIT : Z := 25.

Definition is_TimeoutException (e : exn) : bool :=
  match e with TimeoutException => true | _ => false end.

Definition is_IndexError (e : exn) : bool :=
  match e with IndexError => true | _ => false end.

(** [if x:] for an optional string: neither [None] nor empty. *)
Definition truthy (o : option string) : bool :=
  match o with
  | Some s => negb (String.eqb s "")
  | None => false
  end.

Section Script.

Variable W : World.

(** ** is_int (lines 122-132) and the cast it guards *)

Definition is_int (val : string) : bool :=
  match int_of_str W val with
  | Some _ => true
  | None => false
  end.

Definition int_cast (val : string) : M Z :=
  match int_of_str W val with
  | Some n => ret n
  | None => raise (ValueError "invalid literal for int() with base 10")
  end.

(** ** screenshot_page (lines 135-218)

    [sel_driver] is the one driver of the script at every call, so the
    driver is not a parameter here.  [load_tweak_delay] is a whole number
    of seconds, as the callers pass it (1 and 8); the routine hands it to
    [time.sleep] unchecked. *)

(** [WebDriverWait(sel_driver, load_wait).until(presence_of_element_located)] *)
Definition wait_until_located (by_ : wait_by) (value : string) (load_wait : Z)
    : M unit :=
  emit (DriverWait by_ value load_wait);;
  let* h := history in
  if wait_located W h then ret tt else raise TimeoutException.

(** Lines 157-171. *)
Definition wait_strategy (waitfor : pyval) (waitfor_value : string)
    (load_wait : Z) : M unit :=
  match waitfor with
  | PyStr w =>
      if String.eqb (lower w) "class" then
        wait_until_located By_CLASS_NAME waitfor_value load_wait
      else if String.eqb (lower w) "id" then
        wait_until_located By_ID waitfor_value load_wait
      else if String.eqb (lower w) "time" then
        if is_int waitfor_value then
          let* n := int_cast waitfor_value in time_sleep n
        else ret tt
      else ret tt
  | _ => ret tt
  end.

Definition timeout_warning (page_uri : string) (waitfor : pyval)
    (waitfor_value : string) (load_wait : Z) : string :=
  "WARNING: Loading Page " +:+ page_uri +:+ ", waiting for " +:+
  py_str waitfor +:+ " '" +:+ waitfor_value +:+ "' took longer than " +:+
  pretty load_wait +:+ " seconds. Saving data that exists.".

(** Lines 153-177: load the page and wait; a timeout only prints. *)
Definition load_and_wait (page_uri : string) (waitfor : pyval)
    (waitfor_value : string) (load_wait : Z) : M unit :=
  try_except
    (emit (DriverGet page_uri);;
     wait_strategy waitfor waitfor_value load_wait)
    is_TimeoutException
    (ci_print (timeout_warning page_uri waitfor waitfor_value load_wait)
              NL (Some "yellow")).

(** Lines 185-194 and 196-205: one click target.  The counters are
    [(click_succeeded, click_requested)]. *)
Definition click_target (click_xpath : option string) (counters : nat * nat)
    : M (nat * nat) :=
  match click_xpath with
  | Some xpath =>
      let counters := (fst counters, S (snd counters)) in
      try_except
        (emit (DriverFind xpath);;
         let* h := history in
         match xpath_matches W h with
         | O => raise IndexError
         | S _ =>
             emit (DriverClick xpath);;
             ret (S (fst counters), snd counters)
         end)
        is_IndexError
        (ret counters)
  | None => ret counters
  end.

Definition click_status (counters : nat * nat) : string :=
  "Click(" +:+ pretty (fst counters) +:+ " of " +:+ pretty (snd counters) +:+
  " succeeded) ".

(** Lines 179-218. *)
Definition click_and_capture (start : list event) (output_filename : string)
    (click_xpath click_xpath2 : option string) (load_tweak_delay : Z)
    : M unit :=
  emit (DriverImplicitlyWait 0);;
  let* counters := click_target click_xpath (O, O) in
  let* counters := click_target click_xpath2 counters in
  (if truthy click_xpath || truthy click_xpath2
   then ci_print (click_status counters) "" None
   else ret tt);;
  emit (DriverImplicitlyWait DEFAULT_IMPLICIT_WAIT);;
  time_sleep load_tweak_delay;;
  emit (DriverScreenshot output_filename);;
  let* stop := history in
  ci_print ("(Elapsed " +:+ elapsed W start stop +:+ "s): ") "" None.

Definition screenshot_page (page_uri output_filename : string)
    (waitfor : pyval) (waitfor_value : string)
    (click_xpath click_xpath2 : option string)
    (load_wait load_tweak_delay : Z) : M unit :=
  let* start := history in
  load_and_wait page_uri waitfor waitfor_value load_wait;;
  click_and_capture start output_filename click_xpath click_xpath2
                    load_tweak_delay.

End Script.

(** ** Constants of the script (lines 88-108) *)

Definition portal (region rest : string) : string :=
  "https://portal." +:+ region +:+ ".cloudgenix.com/#" +:+ rest.

Definition UI_TOPOLOGY_PAGE (region : string) : string := portal region "map".
Definition UI_SITE_PAGE (region site_id : string) : string :=
  portal region ("map/site/" +:+ site_id).
Definition element_config (region element_id page : string) : string :=
  portal region ("element/config/" +:+ element_id +:+ "/" +:+ page).
Definition UI_ELEMENT_BASIC r e := element_config r e "basic_info".
Definition UI_ELEMENT_TOOLKIT r e := element_config r e "device_toolkit".
Definition UI_ELEMENT_INTERFACES r e := element_config r e "interfaces".
Definition UI_ELEMENT_BGPPEERS r e := element_config r e "routing/bgp:peers".
Definition UI_ELEMENT_BGPROUTEMAPS r e :=
  element_config r e "routing/bgp:route_maps".
Definition UI_ELEMENT_BGPPREFIXLISTS r e :=
  element_config r e "routing/bgp:prefix_lists".
Definition UI_ELEMENT_BGPASPATHACL r e :=
  element_config r e "routing/bgp:as_path_lists".
Definition UI_ELEMENT_BGPIPCOMMUNITYLISTS r e :=
  element_config r e "routing/bgp:ip_community_lists".
Definition UI_ELEMENT_STATICROUTES r e :=
  element_config r e "routing/static_routes".
Definition UI_ELEMENT_SNMP r e := element_config r e "snmp".
Definition UI_ELEMENT_SYSLOG r e := element_config r e "syslog_export".
Definition UI_ELEMENT_NTP r e := element_config r e "ntp_client".
Definition UI_INTERFACES_DETAIL (r e i : string) : string :=
  element_config r e ("interfaces/" +:+ i).

Definition XPATH_1_INTERFACE_EXPANDS : string :=
  "/html/body/div[1]/section/div/div[2]/div/div/div[2]/div/div/div[3]/div/div/form/" +:+
  "div[2]/div/div/div[1]/a".
Definition XPATH_2_INTERFACE_EXPANDS : string :=
  "/html/body/div[1]/section/div/div[2]/div/div/div[2]/div/div/div[3]/div/div/form/" +:+
  "div[3]/div/div/div[1]/a".
Definition XPATH_CLOSE_WHATS_NEW : string :=
  "/html/body/div[1]/div[4]/div/div/img".

(** ** CI build information (lines 60-84) *)

Record ci_info : Type := mkCI {
  CI_SYSTEM : option string;
  CI_COMMIT : option string;
  CI_BUILD_ID : option string;
  CI_BUILD_URL : option string
}.

Definition in_environ (env : gmap string string) (var : string) : bool :=
  match env !! var with Some _ => true | None => false end.

Definition detect_ci (env : gmap string string) : ci_info :=
  if in_environ env "TRAVIS_BUILD_NUMBER" && in_environ env "TRAVIS_BUILD_WEB_URL"
  then mkCI (Some "Travis CI") (env !! "TRAVIS_COMMIT")
            (env !! "TRAVIS_BUILD_NUMBER") (env !! "TRAVIS_BUILD_WEB_URL")
  else if in_environ env "BUILD_ID" && in_environ env "BUILD_URL"
  then mkCI (Some "Jenkins") (env !! "GIT_COMMIT")
            (env !! "BUILD_NUMBER") (env !! "BUILD_URL")
  else mkCI None None None None.

(** ** Python dicts that keep insertion order *)

(** [d[k] = v] *)
Fixpoint dict_set {V} (d : list (string * V)) (k : string) (v : V)
    : list (string * V) :=
  match d with
  | [] => [(k, v)]
  | (k', v') :: d' =>
      if String.eqb k' k then (k', v) :: d' else (k', v') :: dict_set d' k v
  end.

(** [d.get(k)] *)
Fixpoint dict_get {V} (d : list (string * V)) (k : string) : option V :=
  match d with
  | [] => None
  | (k', v') :: d' => if String.eqb k' k then Some v' else dict_get d' k
  end.

(** ** The Markdown index (lines 301, 314-318, 337-341, 452-455) *)

Record md_interface : Type := mkMdInterface {
  mi_name : string;
  mi_fs_name : string
}.

Record md_element : Type := mkMdElement {
  me_name : string;
  me_fs_name : string;
  me_interfaces : list md_interface
}.

Record md_site : Type := mkMdSite {
  ms_name : string;
  ms_fs_name : string;
  ms_elements : list md_element
}.

(** [sorted(interfaces_unsorted, key=lambda iface: iface['name'])]: a stable
    sort on the names. *)
Fixpoint insert_by_name (x : interface) (l : list interface) : list interface :=
  match l with
  | [] => [x]
  | y :: l' =>
      if String.leb (iface_name x) (iface_name y) then x :: l
      else y :: insert_by_name x l'
  end.

Definition sorted_by_name (l : list interface) : list interface :=
  foldr insert_by_name [] l.

Section Main.

Variable W : World.

Let region : string := controller_region W.

(** ** sites_dict (lines 252-261) *)

Definition elements_of (config_site_cnf : yaml) : list string :=
  fold_left (fun elements_list item => elements_list ++ [fst item])
            (config_lower_version_get W config_site_cnf "elements") [].

Definition build_sites_dict (loaded_config : yaml)
    : list (string * list string) :=
  fold_left (fun sites_dict item =>
               dict_set sites_dict (fst item) (elements_of (snd item)))
            (config_lower_version_get W loaded_config "sites") [].

(** ** The capture loop (lines 304-475) *)

Definition done_ : M unit := ci_print "Done" NL (Some "green").

(** Lines 447-466: one interface. *)
Definition capture_interface (element_id interface_directory : string)
    (interfaces : list md_interface) (interface_record : interface)
    : M (list md_interface) :=
  let interface_id := iface_id interface_record in
  let interface_name := iface_name interface_record in
  let interface_fs_name := sanitize_filename interface_name in
  let markdown_interface_info := mkMdInterface interface_name interface_fs_name in
  ci_print ("        Taking Screenshot of Interface '" +:+ interface_name +:+
            "' Configuration: ") "" None;;
  screenshot_page W (UI_INTERFACES_DETAIL region element_id interface_id)
    (interface_directory +:+ interface_fs_name +:+ ".png")
    (PyStr "class") "collapsible-form__toggle"
    (Some XPATH_1_INTERFACE_EXPANDS) (Some XPATH_2_INTERFACE_EXPANDS) 15 1;;
  done_;;
  ret (interfaces ++ [markdown_interface_info]).

(** Lines 436-469: the interfaces of one element. *)
Definition capture_interfaces (site_id element_id element_directory : string)
    : M (list md_interface) :=
  let interfaces_unsorted := get_interfaces W site_id element_id in
  if (1 <=? length interfaces_unsorted)%nat then
    let interfaces_cache := sorted_by_name interfaces_unsorted in
    let interface_directory := element_directory +:+ "interfaces" +:+ "/" in
    on_fs (mkdir_parents interface_directory);;
    emit (DriverSetWindowSize 1920 2160);;
    let* interfaces :=
      for_fold interfaces_cache []
               (capture_interface element_id interface_directory) in
    emit (DriverSetWindowSize 1920 1080);;
    ret interfaces
  else ret [].

(** One page of an element: announce, capture, report. *)
Definition element_page (element_name what uri filename value : string)
    (load_wait : Z) : M unit :=
  ci_print ("      Taking Screenshot of Element '" +:+ element_name +:+ "' " +:+
            what) "" None;;
  screenshot_page W uri filename (PyStr "class") value None None load_wait 1;;
  done_.

(** Lines 327-472: one element of a site. *)
Definition capture_element (site_id site_directory : string)
    (elements : list md_element) (element_name : string)
    : M (list md_element) :=
  match elements_n2id W !! element_name with
  | None =>
      ci_print ("WARNING: Could not get Element ID for Element " +:+
                element_name +:+ ", skipping..") NL (Some "yellow");;
      ret elements
  | Some element_id =>
      let element_fs_name := sanitize_filename element_name in
      let element_directory := site_directory +:+ element_fs_name +:+ "/" in
      on_fs (mkdir_parents element_directory);;
      element_page element_name "Static Routes: "
        (UI_ELEMENT_STATICROUTES region element_id)
        (element_directory +:+ "static_routes.png") "static-routing-table" 60;;
      element_page element_name "Basic Config: "
        (UI_ELEMENT_BASIC region element_id)
        (element_directory +:+ "basic_info.png") "form-group" 15;;
      element_page element_name "BGP Peers: "
        (UI_ELEMENT_BGPPEERS region element_id)
        (element_directory +:+ "bgp_peers.png") "bgpPeersTable" 15;;
      element_page element_name "Device Toolkit: "
        (UI_ELEMENT_TOOLKIT region element_id)
        (element_directory +:+ "device_toolkit.png") "form-group" 15;;
      element_page element_name "BGP Route Maps: "
        (UI_ELEMENT_BGPROUTEMAPS region element_id)
        (element_directory +:+ "bgp_route_maps.png") "routeMapsTable" 15;;
      ci_print ("      Taking Screenshot of Element '" +:+ element_name +:+
                "' Interfaces Summary: ") "" None;;
      emit (DriverSetWindowSize 1920 2160);;
      screenshot_page W (UI_ELEMENT_INTERFACES region element_id)
        (element_directory +:+ "interfaces_summary.png")
        (PyStr "class") "interface_name-wrapper" None None 15 1;;
      emit (DriverSetWindowSize 1920 1080);;
      done_;;
      element_page element_name "BGP Prefix Lists: "
        (UI_ELEMENT_BGPPREFIXLISTS region element_id)
        (element_directory +:+ "bgp_prefix_lists.png") "prefixListsTable" 15;;
      element_page element_name "SNMP: "
        (UI_ELEMENT_SNMP region element_id)
        (element_directory +:+ "snmp.png") "snmpAgentView" 15;;
      element_page element_name "BGP AS-PATH Access Lists: "
        (UI_ELEMENT_BGPASPATHACL region element_id)
        (element_directory +:+ "bgp_aspath_acl.png") "asPathListsTable" 15;;
      element_page element_name "SYSLOG:  "
        (UI_ELEMENT_SYSLOG region element_id)
        (element_directory +:+ "syslog.png") "syslog-export-table" 15;;
      element_page element_name "BGP IP Community Lists: "
        (UI_ELEMENT_BGPIPCOMMUNITYLISTS region element_id)
        (element_directory +:+ "bgp_ip_community_lists.png")
        "ipCommunityListsTable" 15;;
      element_page element_name "NTP: "
        (UI_ELEMENT_NTP region element_id)
        (element_directory +:+ "ntp.png") "ntp-servers-table" 15;;
      let* interfaces :=
        capture_interfaces site_id element_id element_directory in
      ret (elements ++ [mkMdElement element_name element_fs_name interfaces])
  end.

(** Lines 304-475: one site of [sites_dict]. *)
Definition capture_site (markdown_index : list md_site)
    (item : string * list string) : M (list md_site) :=
  let site_name := fst item in
  let elements_list := snd item in
  match sites_n2id W !! site_name with
  | None =>
      ci_print ("WARNING: Could not get Site ID for Site " +:+ site_name +:+
                ", skipping..") NL (Some "yellow");;
      ret markdown_index
  | Some site_id =>
      let site_fs_name := sanitize_filename site_name in
      let site_directory := "screenshots/" +:+ site_fs_name +:+ "/" in
      on_fs (mkdir_parents site_directory);;
      ci_print ("    Taking Screenshot of Site '" +:+ site_name +:+
                "' Site Map Card: ") "" None;;
      screenshot_page W (UI_SITE_PAGE region site_id)
        (site_directory +:+ "site-info.png")
        (PyStr "class") "site-info" None None 15 1;;
      done_;;
      let* elements :=
        for_fold elements_list [] (capture_element site_id site_directory) in
      ret (markdown_index ++ [mkMdSite site_name site_fs_name elements])
  end.

Definition capture_sites (sites_dict : list (string * list string))
    (markdown_index : list md_site) : M (list md_site) :=
  for_fold sites_dict markdown_index capture_site.

End Main.

(** ** The Markdown templates (lines 484-603) *)

(** Text made of lines, each closed by a newline. *)
Definition unlines (ls : list string) : string :=
  foldr (fun l rest => l +:+ NL +:+ rest) "" ls.

(** [{x}] inside an f-string, for a value that may be [None]. *)
Definition py_opt (o : option string) : string := default "None" o.

(** The optional commit paragraph of a header. *)
Definition commit_block (ci : ci_info) : string :=
  if truthy (CI_COMMIT ci)
  then NL +:+ NL +:+ "commit: " +:+ py_opt (CI_COMMIT ci)
  else "".

(** The optional build paragraph of a header. *)
Definition build_block (ci : ci_info) : string :=
  if truthy (CI_SYSTEM ci)
  then NL +:+ NL +:+ py_opt (CI_SYSTEM ci) +:+ " job id: [" +:+
       py_opt (CI_BUILD_ID ci) +:+ "](" +:+ py_opt (CI_BUILD_URL ci) +:+ ")"
  else "".

Definition img (alt src : string) : string :=
  "<img alt=" +:+ DQ +:+ alt +:+ DQ +:+ " src=" +:+ DQ +:+ src +:+ "?raw=1" +:+
  DQ +:+ " width=" +:+ DQ +:+ "1110" +:+ DQ +:+ ">".

Definition anchor (href text : string) : string :=
  "<A href=" +:+ DQ +:+ href +:+ DQ +:+ ">" +:+ text +:+ "</A>".

(** Lines 486-498. *)
Definition site_readme_header (ci : ci_info) (site : md_site) : string :=
  unlines
    [ "## Site: " +:+ ms_name site +:+ commit_block ci +:+ build_block ci;
      "";
      "[Back To Topology](../README.md)";
      img "Site Card" "site-info.png";
      "";
      "### Elements";
      "<ul>" ].

(** Lines 502-552. *)
Definition element_readme (ci : ci_info) (element : md_element) : string :=
  unlines
    [ "## Element: " +:+ me_name element +:+ commit_block ci +:+ build_block ci;
      "";
      "[Back To Site](../README.md)";
      "";
      "### Interfaces";
      "<ul>";
      "<li>";
      anchor "interfaces/README.md" "Interfaces Detail";
      "</li>";
      "</ul>";
      img "Interfaces Summary" "interfaces_summary.png";
      "";
      "### Basic Info";
      img "Basic Info" "basic_info.png";
      "";
      "### Device Toolkit";
      img "Device Toolkit" "device_toolkit.png";
      "";
      "### Routing/BGP Peers";
      img "BGP Peers" "bgp_peers.png";
      "";
      "### Routing/BGP Route Maps";
      img "BGP Route Maps" "bgp_route_maps.png";
      "";
      "### Routing/BGP AS-Path Access Lists";
      img "BGP Peers" "bgp_aspath_acl.png";
      "";
      "### Routing/BGP Prefix Lists";
      img "BGP Peers" "bgp_prefix_lists.png";
      "";
      "### Routing/BGP Peers";
      img "BGP Peers" "bgp_ip_community_lists.png";
      "";
      "### Routing/Static";
      img "Static Routes" "static_routes.png";
      "";
      "### SNMP";
      img "SNMP" "snmp.png";
      "";
      "### SYSLOG";
      img "SYSLOG" "syslog.png";
      "";
      "### NTP";
      img "NTP" "ntp.png";
      "" ].

(** Lines 556-565. *)
Definition interface_readme_header (ci : ci_info) (element : md_element)
    : string :=
  unlines
    [ "## Element: " +:+ me_name element +:+ " Interfaces" +:+
        commit_block ci +:+ build_block ci;
      "";
      "[Back To Element](../README.md)";
      "" ].

(** Lines 570-574. *)
Definition interface_entry (interface : md_interface) : string :=
  unlines
    [ "### " +:+ mi_name interface;
      img "1" (mi_fs_name interface +:+ ".png");
      "                " ].

(** Lines 568-574: the header followed by one entry per interface. *)
Definition interface_readme (ci : ci_info) (element : md_element) : string :=
  fold_left (fun interface_readme_md interface =>
               interface_readme_md +:+ interface_entry interface)
            (me_interfaces element) (interface_readme_header ci element).

(** Lines 589-593. *)
Definition element_item (element : md_element) : string :=
  unlines
    [ "<li>";
      anchor (me_fs_name element +:+ "/README.md") (me_name element);
      "</li>" ].

(** ** The Markdown emitter (lines 484-603) *)

Definition write_file (filename content : string) : M unit :=
  on_fs (open_write filename content).

(** Lines 500-593: one element of a site; returns the grown site text. *)
Definition emit_element (ci : ci_info) (site : md_site)
    (site_readme_md : string) (element : md_element) : M string :=
  let element_readme_filename :=
    "screenshots/" +:+ ms_fs_name site +:+ "/" +:+ me_fs_name element +:+
    "/README.md" in
  let element_readme_md := element_readme ci element in
  let interface_readme_filename :=
    "screenshots/" +:+ ms_fs_name site +:+ "/" +:+ me_fs_name element +:+
    "/interfaces/README.md" in
  let interface_readme_md := interface_readme ci element in
  ci_print ("      Writing " +:+ interface_readme_filename +:+ ": ") "" None;;
  write_file interface_readme_filename interface_readme_md;;
  done_;;
  ci_print ("      Writing " +:+ element_readme_filename +:+ ": ") "" None;;
  write_file element_readme_filename element_readme_md;;
  done_;;
  ret (site_readme_md +:+ element_item element).

(** Lines 484-603: one site of the index. *)
Definition emit_site (ci : ci_info) (site : md_site) : M unit :=
  let site_readme_filename :=
    "screenshots/" +:+ ms_fs_name site +:+ "/README.md" in
  let* site_readme_md :=
    for_fold (ms_elements site) (site_readme_header ci site)
             (emit_element ci site) in
  let site_readme_md := site_readme_md +:+ unlines ["</ul>"] in
  ci_print ("      Writing " +:+ site_readme_filename +:+ ": ") "" None;;
  write_file site_readme_filename site_readme_md;;
  done_.

Definition emit_markdown (ci : ci_info) (markdown_index : list md_site)
    : M unit :=
  for_each markdown_index (emit_site ci).

(** ** The script from top to bottom *)

Section Toplevel.

Variable W : World.

(** Lines 53-58. *)
Definition get_auth_token : M string :=
  match environ W !! "AUTH_TOKEN" with
  | Some token => ret token
  | None =>
      ci_print "ERROR: No AUTH_TOKEN available for screenshots. Exiting."
               NL (Some "red");;
      sys_exit 1
  end.

(** Lines 225-229. *)
Definition check_arguments : M unit :=
  if negb (length (argv W) =? 2)%nat then
    ci_print
      "ERROR: This script takes exactly 1 command line argument. Got the following: "
      NL (Some "red");;
    for_each (argv W) (fun arg => ci_print arg NL (Some "red"));;
    sys_exit 1
  else ret tt.

(** Lines 235-240. *)
Definition load_config (config_file : string) : M yaml :=
  match open_config W config_file with
  | LoadIOError e =>
      ci_print ("ERROR: Could not open file " +:+ config_file +:+ ": " +:+ e)
               NL (Some "red");;
      sys_exit 1
  | LoadDecodeError => raise UnicodeDecodeError
  | LoadYAMLError => raise YAMLError
  | Loaded loaded_config => ret loaded_config
  end.

Definition script : M unit :=
  let* CLOUDGENIX_AUTH_TOKEN := get_auth_token in
  let ci := detect_ci (environ W) in
  let* script_start := history in
  check_arguments;;
  let config_file := nth 1 (argv W) "" in
  let* loaded_config := load_config config_file in
  ci_print ("    Loaded Config File " +:+ config_file +:+ ".") NL None;;
  let region := controller_region W in
  let sites_dict := build_sites_dict W loaded_config in
  emit (DriverStart ["headless"; "window-size=1920x1080"]);;
  emit (DriverImplicitlyWait DEFAULT_IMPLICIT_WAIT);;
  emit (DriverHeaderOverrides CLOUDGENIX_AUTH_TOKEN);;
  let* screenshot_start := history in
  ci_print "    Logging in and taking topology screenshot: " "" None;;
  screenshot_page W (UI_TOPOLOGY_PAGE region) "screenshots/map.png"
    (PyStr "class") "leaflet-map-pane" (Some XPATH_CLOSE_WHATS_NEW) None 15 8;;
  done_;;
  let* markdown_index := capture_sites W sites_dict [] in
  emit DriverClose;;
  let* screenshot_stop := history in
  ci_print "    Creating changed item Markdown Indexes.." NL (Some "white");;
  emit_markdown ci markdown_index;;
  let* script_stop := history in
  ci_print ("    File " +:+ config_file +:+ " completed. Screenshot time: " +:+
            elapsed W screenshot_start screenshot_stop +:+
            "s, Total elapsed time: " +:+ elapsed W script_start script_stop +:+
            "s") NL None.

(** A run of the script on a given file system. *)
Definition run (fs0 : filesystem) : outcome unit * state :=
  script (mkState [] fs0).

End Toplevel.

(** ** Vocabulary of the statements *)

(** The state after some more events, the file system untouched. *)
Definition emitted (st : state) (evs : list event) : state :=
  mkState (trace st ++ evs) (fs st).


(** The lines of a text. *)
Definition lines (s : string) : list string := split_on LF s.

Definition single_line (s : string) : bool := negb (char_in LF s).

(** A commit line as the templates would print it. *)
Definition is_commit_line (l : string) : bool := String.prefix "commit: " l.

(** A build line as the templates would print it: for one of the two CI
    systems, or with 'None' or nothing in the place of the system. *)
Definition is_build_line (l : string) : bool :=
  existsb (fun system => String.prefix (system +:+ " job id: [") l)
          ["Travis CI"; "Jenkins"; "None"; ""].

Definition no_ci_lines (content : string) : bool :=
  forallb (fun l => negb (is_commit_line l) && negb (is_build_line l))
          (lines content).

(** The environment variables the CI detection reads. *)
Definition CI_VARIABLES : list string :=
  ["TRAVIS_BUILD_NUMBER"; "TRAVIS_BUILD_WEB_URL"; "TRAVIS_COMMIT";
   "BUILD_ID"; "BUILD_URL"; "GIT_COMMIT"; "BUILD_NUMBER"].

Definition no_ci : ci_info := mkCI None None None None.

(** Index records whose names hold no line break. *)
Definition single_line_interface (i : md_interface) : bool :=
  single_line (mi_name i) && single_line (mi_fs_name i).

Definition single_line_element (e : md_element) : bool :=
  single_line (me_name e) && single_line (me_fs_name e) &&
  forallb single_line_interface (me_interfaces e).

Definition single_line_site (s : md_site) : bool :=
  single_line (ms_name s) && single_line (ms_fs_name s) &&
  forallb single_line_element (ms_elements s).

(** A line that stays on one line and is neither of the two CI lines. *)
Definition plain_line (l : string) : bool :=
  single_line l && negb (is_commit_line l) && negb (is_build_line l).

(** Text made of plain lines only. *)
Definition plain_text (s : string) : Prop :=
  exists ls, s = unlines ls /\ forallb plain_line ls = true.

Definition free_of_ci_lines (content : string) : Prop :=
  no_ci_lines content = true.

(** Every file of [st'] is a file of [st] or holds text satisfying [P]. *)
Definition writes_only (P : string -> Prop) (st st' : state) : Prop :=
  forall p c, files (fs st') !! p = Some c -> files (fs st) !! p = Some c \/ P c.

(** [m] writes only [P]-texts, and what it returns satisfies [Q]. *)
Definition delivers {A} (P : string -> Prop) (m : M A) (Q : A -> Prop) : Prop :=
  forall st,
    writes_only P st (snd (m st)) /\
    forall a, fst (m st) = Returned a -> Q a.

(** ** A small world to run the script in *)

Module Sample.

(** Plain signed decimal numerals, on which the builtin [int] agrees. *)
Fixpoint digits_value (s : string) (acc : Z) : option Z :=
  match s with
  | EmptyString => Some acc
  | String c s' =>
      match Ascii.is_nat c with
      | Some d => digits_value s' (10 * acc + Z.of_nat d)
      | None => None
      end
  end.

Definition decimal_int (s : string) : option Z :=
  match s with
  | EmptyString => None
  | String "-" (String c s') => Z.opp <$> digits_value (String c s') 0
  | String "+" (String c s') => digits_value (String c s') 0
  | _ => digits_value s 0
  end.

(** The mapping stored under the first key that starts with [key], as in
    'sites v4.5'. *)
Definition lookup_versioned (config : yaml) (key : string)
    : list (string * yaml) :=
  match config with
  | YMapping items =>
      match List.find (fun item => String.prefix key (fst item)) items with
      | Some (_, YMapping found) => found
      | _ => []
      end
  | YScalar _ => []
  end.

(** One site 'S' with one element 'E'. *)
Definition config : yaml :=
  YMapping
    [("sites v4.5",
      YMapping
        [("S", YMapping
                 [("elements v2.3", YMapping [("E", YScalar "model")])])])].

(** A world in which every page loads and [interfaces] lists what the SDK
    returns for the one element. *)
Definition world (interfaces : list interface) : World := {|
  environ := {[ "AUTH_TOKEN" := "token" ]};
  argv := ["screenshot.py"; "config.yml"];
  open_config := fun _ => Loaded config;
  config_lower_version_get := lookup_versioned;
  controller_region := "us";
  sites_n2id := {[ "S" := "100" ]};
  elements_n2id := {[ "E" := "200" ]};
  get_interfaces := fun _ _ => interfaces;
  int_of_str := decimal_int;
  wait_located := fun _ => true;
  xpath_matches := fun _ => 1%nat;
  elapsed := fun _ _ => "0.0000"
|}.


(** The same world started without an authentication token. *)
Definition world_without_token : World := {|
  environ := ∅;
  argv := argv (world []);
  open_config := open_config (world []);
  config_lower_version_get := lookup_versioned;
  controller_region := "us";
  sites_n2id := sites_n2id (world []);
  elements_n2id := elements_n2id (world []);
  get_interfaces := fun _ _ => [];
  int_of_str := decimal_int;
  wait_located := fun _ => true;
  xpath_matches := fun _ => O;
  elapsed := fun _ _ => "0.0000"
|}.

Definition empty_fs : filesystem := mkFS ∅ ∅.

(** The tree an earlier run with interfaces has left behind. *)
Definition earlier_tree : filesystem :=
  mkFS {[ ["screenshots"]; ["screenshots"; "S"]; ["screenshots"; "S"; "E"];
          ["screenshots"; "S"; "E"; "interfaces"] ]} ∅.

Definition start : state := mkState [] empty_fs.

Definition lan : interface := mkInterface "300" "lan 1".

(** The index of a site with one element and one interface. *)
Definition index : list md_site :=
  [mkMdSite "S" "S" [mkMdElement "E" "E" [mkMdInterface "lan 1" "lan 1"]]].

End Sample.

(** ** Vocabulary for whole fragments *)

(** [R] relates the state [m] starts in to the state it ends in, whatever the
    outcome; a returned value satisfies [Q], an exception that leaves [m]
    satisfies [E], and [m] never exits. *)
Definition behaves {A} (R : state -> state -> Prop) (E : exn -> Prop)
    (m : M A) (Q : A -> Prop) : Prop :=
  forall st,
    R st (snd (m st)) /\
    match fst (m st) with
    | Returned a => Q a
    | Raised e => E e
    | Exited _ => False
    end.

(** A property of event lists that holds of no events and of two lists in
    a row when it holds of each. *)
Class Cumulative (P : list event -> Prop) : Prop := {
  cumulative_nil : P [];
  cumulative_app : forall evs1 evs2, P evs1 -> P evs2 -> P (evs1 ++ evs2)
}.

Definition implicit_wait_of (ev : event) : option Z :=
  match ev with DriverImplicitlyWait secs => Some secs | _ => None end.

Definition window_size_of (ev : event) : option (Z * Z) :=
  match ev with DriverSetWindowSize w h => Some (w, h) | _ => None end.

(** The last setting among some events, if they hold one. *)
Definition last_setting {V} (setting_of : event -> option V)
    (evs : list event) : option V :=
  last (omap setting_of evs).

(** Events that leave a setting, if they touch it at all, at [v]. *)
Definition leaves_at {V} (setting_of : event -> option V) (v : V)
    (evs : list event) : Prop :=
  last_setting setting_of evs = None \/ last_setting setting_of evs = Some v.

Definition is_screenshot (ev : event) : bool :=
  match ev with DriverScreenshot _ => true | _ => false end.

Definition is_click (ev : event) : bool :=
  match ev with DriverClick _ => true | _ => false end.

Definition count_events (p : event -> bool) (evs : list event) : nat :=
  length (List.filter p evs).

(** The exception with which [time.sleep] refuses a length; [None] for a
    length it accepts, which is one from 0 to [PYTIME_MAX_SECONDS]. *)
Definition sleep_refusal (secs : Z) : option exn :=
  if (secs <? - PYTIME_MAX_SECONDS) || (PYTIME_MAX_SECONDS <? secs)
  then Some OverflowError
  else if secs <? 0
  then Some (ValueError "sleep length must be non-negative")
  else None.

(** The length of the timed wait of a call, when it makes one: waitfor
    lowers to 'time' and [int] casts the value. *)
Definition timed_wait (W : World) (waitfor : pyval) (waitfor_value : string)
    : option Z :=
  match waitfor with
  | PyStr w =>
      if String.eqb (lower w) "time" then int_of_str W waitfor_value else None
  | _ => None
  end.

(** The exception with which the timed wait of a call is refused; [None]
    when the call makes no timed wait or one of an accepted length. *)
Definition wait_refusal (W : World) (waitfor : pyval) (waitfor_value : string)
    : option exn :=
  match timed_wait W waitfor waitfor_value with
  | Some n => sleep_refusal n
  | None => None
  end.

(** What the wait step of [screenshot_page] may leave in the trace. *)
Definition wait_phase_event (ev : event) : bool :=
  match ev with
  | DriverWait _ _ _ | Sleep _ | Stdout _ => true
  | _ => false
  end.

(** A lookup or a click of one of the two given targets. *)
Definition attempt_on (click_xpath click_xpath2 : option string) (ev : event)
    : Prop :=
  exists xpath,
    (click_xpath = Some xpath \/ click_xpath2 = Some xpath) /\
    (ev = DriverFind xpath \/ ev = DriverClick xpath).

(** [1] for a given target, [0] for [None]. *)
Definition requested (click_xpath : option string) : nat :=
  match click_xpath with Some _ => 1 | None => 0 end.

Definition is_page_load (ev : event) : bool :=
  match ev with DriverGet _ => true | _ => false end.



(** [m] always returns, leaves the file system alone, and value and new
    events satisfy [Q]. *)
Definition returns {A} (m : M A) (Q : A -> list event -> Prop) : Prop :=
  forall st, exists a evs, m st = (Returned a, emitted st evs) /\ Q a evs.

(** The names of the files asked of the driver, in order. *)
Definition screenshot_files (evs : list event) : list string :=
  omap (fun ev => match ev with DriverScreenshot f => Some f | _ => None end)
       evs.

(** Events of page captures: everything but starting, configuring, resizing
    and closing the browser. *)
Definition page_event (ev : event) : bool :=
  match ev with
  | DriverStart _ | DriverHeaderOverrides _ | DriverSetWindowSize _ _
  | DriverClose => false
  | _ => true
  end.

(** Events of the capture loop: page captures and window resizes. *)
Definition capture_event (ev : event) : bool :=
  match ev with
  | DriverStart _ | DriverHeaderOverrides _ | DriverClose => false
  | _ => true
  end.

(** ** The index and the screenshots a configuration calls for *)

Definition interface_record (i : interface) : md_interface :=
  mkMdInterface (iface_name i) (sanitize_filename (iface_name i)).

(** The record of an element, if the lookup knows it. *)
Definition expected_element (W : World) (site_id element_name : string)
    : list md_element :=
  match elements_n2id W !! element_name with
  | None => []
  | Some element_id =>
      [mkMdElement element_name (sanitize_filename element_name)
         (map interface_record
              (sorted_by_name (get_interfaces W site_id element_id)))]
  end.

(** The record of a site, if the lookup knows it. *)
Definition expected_site (W : World) (item : string * list string)
    : list md_site :=
  match sites_n2id W !! fst item with
  | None => []
  | Some site_id =>
      [mkMdSite (fst item) (sanitize_filename (fst item))
         (concat (map (expected_element W site_id) (snd item)))]
  end.

Definition expected_index (W : World) (sites_dict : list (string * list string))
    : list md_site :=
  concat (map (expected_site W) sites_dict).

(** The pages of an element, in the order of capture. *)
Definition ELEMENT_PAGES : list string :=
  ["static_routes.png"; "basic_info.png"; "bgp_peers.png";
   "device_toolkit.png"; "bgp_route_maps.png"; "interfaces_summary.png";
   "bgp_prefix_lists.png"; "snmp.png"; "bgp_aspath_acl.png"; "syslog.png";
   "bgp_ip_community_lists.png"; "ntp.png"].

Definition interface_screenshots (interface_directory : string)
    (interfaces : list md_interface) : list string :=
  map (fun i => interface_directory +:+ mi_fs_name i +:+ ".png") interfaces.

Definition element_screenshots (site_directory : string) (e : md_element)
    : list string :=
  let element_directory := site_directory +:+ me_fs_name e +:+ "/" in
  map (fun page => element_directory +:+ page) ELEMENT_PAGES ++
  interface_screenshots (element_directory +:+ "interfaces" +:+ "/")
                        (me_interfaces e).

Definition site_screenshots (s : md_site) : list string :=
  let site_directory := "screenshots/" +:+ ms_fs_name s +:+ "/" in
  (site_directory +:+ "site-info.png") ::
  concat (map (element_screenshots site_directory) (ms_elements s)).

Definition index_screenshots (markdown_index : list md_site) : list string :=
  concat (map site_screenshots markdown_index).

(** Whatever the outcome of [m], the events it adds and the outcome satisfy
    [Q]. *)
Definition ends {A} (m : M A) (Q : outcome A -> list event -> Prop) : Prop :=
  forall st,
    exists evs, trace (snd (m st)) = trace st ++ evs /\ Q (fst (m st)) evs.

(** The events of page captures that request the given files, in order,
    and leave the implicit wait of the driver at its default. *)
Definition chunk (requested_files : list string) (evs : list event) : Prop :=
  forallb page_event evs = true /\
  leaves_at implicit_wait_of DEFAULT_IMPLICIT_WAIT evs /\
  screenshot_files evs = requested_files.

(** Events that keep the browser open and leave it with the default
    implicit wait and the default window size. *)
Definition stable (evs : list event) : Prop :=
  forallb capture_event evs = true /\
  leaves_at implicit_wait_of DEFAULT_IMPLICIT_WAIT evs /\
  leaves_at window_size_of (1920, 1080) evs.

(** The errors of [mkdir]. *)
Definition is_mkdir_error (e : exn) : Prop :=
  match e with
  | FileExistsError _ | NotADirectoryError _ => True
  | _ => False
  end.

(** The file system of [st'] has the files of [st] and at least its
    directories. *)
Definition grows (st st' : state) : Prop :=
  files (fs st') = files (fs st) /\ dirs (fs st) ⊆ dirs (fs st').

(** The usual shape of what is known at the end of a fragment of the
    capture loop: the events are stable; a returned value and the events
    satisfy [QV]; an exception satisfies [QE]; the fragment does not exit. *)
Definition outcome_of {A} (QV : A -> list event -> Prop) (QE : exn -> Prop)
    : outcome A -> list event -> Prop :=
  fun o evs =>
    stable evs /\
    match o with
    | Returned a => QV a evs
    | Raised e => QE e
    | Exited _ => False
    end.

(** What a fragment of the capture loop ends in: stable events; on return a
    value and a list of requested files that satisfy [QV]; no exception but
    one of [mkdir]; no exit. *)
Definition captured {A} (QV : A -> list string -> Prop)
    : outcome A -> list event -> Prop :=
  outcome_of (fun a evs => QV a (screenshot_files evs)) is_mkdir_error.

(** The errors of [open(name, 'w')]. *)
Definition is_open_error (e : exn) : Prop :=
  match e with
  | FileNotFoundError _ | NotADirectoryError _ | IsADirectoryError _ => True
  | _ => False
  end.

(** From [st] to [st'] only lines were printed and files written: the
    directories are the same and the new events are all output. *)
Definition prints_and_writes (st st' : state) : Prop :=
  dirs (fs st') = dirs (fs st) /\
  exists evs, trace st' = trace st ++ evs /\ forallb is_stdout evs = true.


(** ** What a run of the script ends in *)

Definition is_close (ev : event) : bool :=
  match ev with DriverClose => true | _ => false end.

(** The events with which the script sets the browser up. *)
Definition browser_setup (token : string) : list event :=
  [DriverStart ["headless"; "window-size=1920x1080"];
   DriverImplicitlyWait DEFAULT_IMPLICIT_WAIT;
   DriverHeaderOverrides token].

(** The screenshots a complete run on configuration [config] requests. *)
Definition run_screenshots (W : World) (config : yaml) : list string :=
  "screenshots/map.png" ::
  index_screenshots (expected_index W (build_sites_dict W config)).

(** A run that got past the start-up checks with token [token] and
    configuration [config]: it has printed that the file was loaded, set
    the browser up, and captured pages with stable events; then either
    [mkdir] failed, or the capture was complete, the browser was closed and
    only lines were printed from there on, up to the end or to a failure of
    [open]. *)
Definition captured_run (W : World) (token : string) (config : yaml)
    (o : outcome unit) (evs : list event) : Prop :=
  exists loaded pages closing,
    evs = Stdout loaded :: browser_setup token ++ pages ++ closing /\
    stable pages /\
    match o with
    | Returned _ =>
        screenshot_files pages = run_screenshots W config /\
        exists printed,
          closing = DriverClose :: printed /\ forallb is_stdout printed = true
    | Raised e =>
        (is_mkdir_error e /\ closing = []) \/
        (is_open_error e /\
         screenshot_files pages = run_screenshots W config /\
         exists printed,
           closing = DriverClose :: printed /\ forallb is_stdout printed = true)
    | Exited _ => False
    end.

Definition red_line (text : string) : event :=
  Stdout (ci_print_output text NL (Some "red")).

(** Every way a run can end, with the events it has made. *)
Definition run_outcome (W : World) (o : outcome unit) (evs : list event)
    : Prop :=
  match environ W !! "AUTH_TOKEN" with
  | None =>
      o = Exited 1 /\
      evs = [red_line "ERROR: No AUTH_TOKEN available for screenshots. Exiting."]
  | Some token =>
      if negb (length (argv W) =? 2)%nat then
        o = Exited 1 /\
        evs =
          red_line
            "ERROR: This script takes exactly 1 command line argument. Got the following: "
          :: map red_line (argv W)
      else
        let config_file := nth 1 (argv W) "" in
        match open_config W config_file with
        | LoadIOError e =>
            o = Exited 1 /\
            evs = [red_line ("ERROR: Could not open file " +:+ config_file +:+
                             ": " +:+ e)]
        | LoadDecodeError => o = Raised UnicodeDecodeError /\ evs = []
        | LoadYAMLError => o = Raised YAMLError /\ evs = []
        | Loaded config => captured_run W token config o evs
        end
  end.

(** The order [sorted] puts the interfaces in: by name, as Python compares
    strings. *)
Definition name_le (a b : interface) : Prop :=
  String.leb (iface_name a) (iface_name b) = true.

(** ** Directories and the files written into them *)

(** Every step of the way to [name] is a directory. *)
Definition is_directory (fs0 : filesystem) (name : string) : bool :=
  match walk_dirs name [] (components name) fs0 with
  | inr _ => true
  | inl _ => false
  end.

(** The directories the emitter writes the READMEs of an element into:
    that of the element and, for an element with interfaces, that of its
    interfaces. *)
Definition housed_element (fs0 : filesystem) (site_directory : string)
    (element : md_element) : Prop :=
  let element_directory := site_directory +:+ me_fs_name element +:+ "/" in
  is_directory fs0 element_directory = true /\
  (me_interfaces element <> [] ->
   is_directory fs0 (element_directory +:+ "interfaces" +:+ "/") = true).

Definition housed_site (fs0 : filesystem) (site : md_site) : Prop :=
  let site_directory := "screenshots/" +:+ ms_fs_name site +:+ "/" in
  is_directory fs0 site_directory = true /\
  Forall (housed_element fs0 site_directory) (ms_elements site).

(** Every element of the site has an interface. *)
Definition with_interfaces (site : md_site) : Prop :=
  Forall (fun element => me_interfaces element <> []) (ms_elements site).

Definition is_a_directory_error (e : exn) : Prop :=
  match e with IsADirectoryError _ => True | _ => False end.

(** From a file system satisfying [P], [m] returns a value and a file
    system satisfying [Q], or raises an exception satisfying [E], or
    exits. *)
Definition triple {A} (P : filesystem -> Prop) (m : M A)
    (Q : A -> filesystem -> Prop) (E : exn -> Prop) : Prop :=
  forall st, P (fs st) ->
    match fst (m st) with
    | Returned a => Q a (fs (snd (m st)))
    | Raised e => E e
    | Exited _ => True
    end.

(** The exceptions with which loading the configuration, [mkdir] and an
    [open] in a directory that is there can end a run. *)
Definition run_error (e : exn) : Prop :=
  e = UnicodeDecodeError \/ e = YAMLError \/ is_mkdir_error e \/
  is_a_directory_error e.

(** ** More worlds to run the script in *)

Module Scenario.


(** A Jenkins-like environment that sets no BUILD_NUMBER. *)
Definition jenkins_environ : gmap string string :=
  {[ "BUILD_ID" := "7"; "BUILD_URL" := "https://ci.example/job/7";
     "GIT_COMMIT" := "0a1b2c3" ]}.

Definition site : md_site :=
  mkMdSite "S" "S" [mkMdElement "E" "E" [mkMdInterface "lan 1" "lan 1"]].

Definition element : md_element :=
  mkMdElement "E" "E" [mkMdInterface "lan 1" "lan 1"].

End Scenario.

(** * Properties *)

(** ** The filename sanitizer *)

Lemma char_in_valid_chars (c : ascii) :
  char_in c FILENAME_VALID_CHARS = allow_listed c.
Proof. destruct c as [[] [] [] [] [] [] [] []]; vm_compute; reflexivity. Qed.

Lemma sanitize_filename_cons (c : ascii) (s : string) :
  sanitize_filename (String c s) =
  if allow_listed c then String c (sanitize_filename s) else sanitize_filename s.
Proof. cbn [sanitize_filename]. now rewrite char_in_valid_chars. Qed.

(** C3: sanitize_filename returns exactly the allow-listed characters of its
    argument, in their order; everything else is dropped and nothing is
    added or changed. *)
Theorem sanitize_filename_allowed_subsequence (s : string) :
  sanitize_filename s = allowed_subsequence s.
Proof.
  unfold allowed_subsequence.
  induction s as [|c s IH]; [reflexivity|].
  rewrite sanitize_filename_cons. cbn [list_ascii_of_string List.filter].
  destruct (allow_listed c); cbn [string_of_list_ascii]; now rewrite IH.
Qed.

(** C4: sanitizing an already sanitized name changes nothing. *)
Theorem sanitize_filename_idempotent (s : string) :
  sanitize_filename (sanitize_filename s) = sanitize_filename s.
Proof.
  induction s as [|c s IH]; [reflexivity|].
  rewrite sanitize_filename_cons.
  destruct (allow_listed c) eqn:Hc; [|exact IH].
  rewrite sanitize_filename_cons, Hc. now rewrite IH.
Qed.

(** ** Script fragments step by step *)

Lemma bind_returned {A B} (m : M A) (k : A -> M B) st a st' :
  m st = (Returned a, st') -> bind m k st = k a st'.
Proof. intros H. unfold bind. now rewrite H. Qed.


Lemma emitted_nil st : emitted st [] = st.
Proof. destruct st. unfold emitted. cbn. now rewrite app_nil_r. Qed.

Lemma emitted_emitted st evs1 evs2 :
  emitted (emitted st evs1) evs2 = emitted st (evs1 ++ evs2).
Proof. unfold emitted. cbn. now rewrite app_assoc. Qed.

Lemma emit_spec ev st : emit ev st = (Returned tt, emitted st [ev]).
Proof. reflexivity. Qed.

Lemma ci_print_spec text end_ color st :
  ci_print text end_ color st =
  (Returned tt, emitted st [Stdout (ci_print_output text end_ color)]).
Proof. reflexivity. Qed.


Lemma time_sleep_shape secs st :
  time_sleep secs st =
  match sleep_refusal secs with
  | Some e => (Raised e, st)
  | None => (Returned tt, emitted st [Sleep secs])
  end.
Proof.
  unfold time_sleep, sleep_refusal.
  destruct (_ || _); [reflexivity|]. now destruct (secs <? 0).
Qed.

Lemma sleep_refusal_accepted secs :
  0 <= secs <= PYTIME_MAX_SECONDS -> sleep_refusal secs = None.
Proof.
  intros H. unfold sleep_refusal.
  assert (A : (secs <? - PYTIME_MAX_SECONDS) = false)
    by (apply Z.ltb_ge; unfold PYTIME_MAX_SECONDS; lia).
  assert (B : (PYTIME_MAX_SECONDS <? secs) = false) by (apply Z.ltb_ge; lia).
  assert (C : (secs <? 0) = false) by (apply Z.ltb_ge; lia).
  now rewrite A, B, C.
Qed.



(** ** screenshot_page *)






(** ** sites_dict *)

Lemma fold_left_append_keys {V} (items : list (string * V)) (acc : list string) :
  fold_left (fun elements_list item => elements_list ++ [fst item]) items acc =
  acc ++ map fst items.
Proof.
  revert acc. induction items as [|it items IH]; intros acc; cbn [fold_left map].
  - now rewrite app_nil_r.
  - rewrite IH, <- app_assoc. reflexivity.
Qed.

Lemma elements_of_keys W config_site_cnf :
  elements_of W config_site_cnf =
  map fst (config_lower_version_get W config_site_cnf "elements").
Proof. unfold elements_of. now rewrite fold_left_append_keys. Qed.

Lemma dict_set_fresh {V} (d : list (string * V)) k v :
  k ∉ map fst d -> dict_set d k v = d ++ [(k, v)].
Proof.
  induction d as [|[k' v'] d IH]; intros Hk; cbn [dict_set app]; [reflexivity|].
  cbn [map fst] in Hk. apply not_elem_of_cons in Hk as [Hne Hk].
  destruct (String.eqb_spec k' k) as [->|_]; [congruence|].
  now rewrite IH.
Qed.

Lemma dict_get_map {V U} (f : V -> U) (items : list (string * V)) k v :
  NoDup (map fst items) -> (k, v) ∈ items ->
  dict_get (map (fun it => (fst it, f (snd it))) items) k = Some (f v).
Proof.
  induction items as [|[k' v'] items IH]; intros Hnd Hin.
  - now apply elem_of_nil in Hin.
  - cbn [map fst] in Hnd. apply NoDup_cons in Hnd as [Hk' Hnd].
    cbn [map dict_get fst snd].
    apply elem_of_cons in Hin as [Heq|Hin].
    + injection Heq as -> ->. now rewrite String.eqb_refl.
    + destruct (String.eqb_spec k' k) as [->|_]; [|now apply IH].
      exfalso. apply Hk'. apply list_elem_of_In, in_map_iff.
      exists (k, v). split; [reflexivity|now apply list_elem_of_In].
Qed.

Lemma fold_left_dict_set {V U} (f : V -> U) (items : list (string * V))
    (d : list (string * U)) :
  NoDup (map fst d ++ map fst items) ->
  fold_left (fun sites_dict item => dict_set sites_dict (fst item) (f (snd item)))
            items d =
  d ++ map (fun it => (fst it, f (snd it))) items.
Proof.
  revert d. induction items as [|[k v] items IH]; intros d Hnd;
    cbn [fold_left map fst snd].
  - now rewrite app_nil_r.
  - rewrite dict_set_fresh.
    + rewrite IH; [now rewrite <- app_assoc|].
      rewrite map_app. cbn [map fst]. now rewrite <- app_assoc.
    + apply NoDup_app in Hnd as (_ & Hdisj & _).
      intros Hin. apply (Hdisj k Hin). cbn [map fst]. apply elem_of_cons. now left.
Qed.

(** C5: [sites_dict] has one entry per site of the configuration, in the
    order of the file, and the entry of a site is the list of its element
    names, in the order of the file.  The items of the configuration mapping
    are those of a dict, so their keys differ. *)
Theorem sites_dict_mirrors_config W loaded_config :
  let config_sites := config_lower_version_get W loaded_config "sites" in
  NoDup (map fst config_sites) ->
  build_sites_dict W loaded_config =
    map (fun item => (fst item,
                      map fst (config_lower_version_get W (snd item) "elements")))
        config_sites /\
  length (build_sites_dict W loaded_config) = length config_sites /\
  forall site config_site_cnf,
    (site, config_site_cnf) ∈ config_sites ->
    dict_get (build_sites_dict W loaded_config) site =
    Some (map fst (config_lower_version_get W config_site_cnf "elements")).
Proof.
  intros config_sites Hnd.
  assert (Heq : build_sites_dict W loaded_config =
    map (fun item => (fst item,
                      map fst (config_lower_version_get W (snd item) "elements")))
        config_sites).
  { unfold build_sites_dict. fold config_sites.
    rewrite (fold_left_dict_set (elements_of W)); [|exact Hnd].
    cbn [app]. apply map_ext. intros [k v]. cbn [fst snd].
    now rewrite elements_of_keys. }
  split; [exact Heq|]. rewrite Heq. split.
  - apply length_map.
  - intros site cnf Hin.
    apply (dict_get_map
             (fun c => map fst (config_lower_version_get W c "elements"))
             config_sites site cnf Hnd Hin).
Qed.

(** ** The capture loop *)

(** With no interface to show, lines 436-469 do nothing at all: no
    directory, no window resize, no screenshot. *)
Lemma capture_interfaces_none W site_id element_id element_directory st :
  get_interfaces W site_id element_id = [] ->
  capture_interfaces W site_id element_id element_directory st =
  (Returned [], st).
Proof. intros H. unfold capture_interfaces. now rewrite H. Qed.


(** ** Start-up checks *)

Lemma for_each_ci_print (args : list string) color st :
  for_each args (fun arg => ci_print arg NL color) st =
  (Returned tt,
   emitted st (map (fun arg => Stdout (ci_print_output arg NL color)) args)).
Proof.
  unfold for_each. revert st.
  induction args as [|arg args IH]; intros st; cbn [for_fold map].
  - unfold ret. now rewrite emitted_nil.
  - rewrite (bind_returned _ _ _ _ _ (ci_print_spec _ _ _ _)).
    rewrite IH, emitted_emitted. reflexivity.
Qed.

(** C6: without AUTH_TOKEN, with an argument count other than one, or with
    a configuration file that cannot be opened, the script prints an error
    message in red and exits with code 1; up to then it has only written to
    the output: no driver call was made and the file system is untouched. *)
Theorem fatal_failures_exit_1 W fs0 :
  environ W !! "AUTH_TOKEN" = None \/
  length (argv W) ≠ 2%nat \/
  (exists e, open_config W (nth 1 (argv W) "") = LoadIOError e) ->
  exists message more,
    run W fs0 =
      (Exited 1,
       mkState (Stdout (red +:+ message +:+ NL +:+ nc) :: more) fs0) /\
    String.prefix "ERROR: " message = true /\
    forallb is_stdout more = true.
Proof.
  intros Hfatal. unfold run, script.
  unfold bind at 1, get_auth_token.
  destruct (environ W !! "AUTH_TOKEN") as [token|] eqn:Htoken.
  - unfold ret at 1. unfold bind at 1, history at 1. cbn [trace].
    unfold bind at 1, check_arguments.
    destruct (length (argv W) =? 2)%nat eqn:Hargs; cbn [negb].
    + apply Nat.eqb_eq in Hargs.
      unfold ret at 1. unfold bind at 1, load_config.
      destruct Hfatal as [?|[?|[e He]]]; [congruence..|].
      rewrite He. eexists _, []. split; [reflexivity|]. split; reflexivity.
    + rewrite (bind_returned _ _ _ _ _ (ci_print_spec _ _ _ _)).
      rewrite (bind_returned _ _ _ _ _ (for_each_ci_print _ _ _)).
      rewrite emitted_emitted. unfold sys_exit, emitted. cbn [trace fs app].
      eexists _, _. split; [reflexivity|]. split; [reflexivity|].
      apply forallb_forall. intros ev Hin. apply in_map_iff in Hin as (arg & <- & _).
      reflexivity.
  - eexists _, []. split; [reflexivity|]. split; reflexivity.
Qed.

(** ** Lines of the Markdown files *)

Lemma string_app_cons x (a b : string) : String x a +:+ b = String x (a +:+ b).
Proof. reflexivity. Qed.

Lemma string_app_nil_r (a : string) : a +:+ "" = a.
Proof.
  induction a as [|x a IH]; [reflexivity|].
  now rewrite string_app_cons, IH.
Qed.

Lemma string_app_assoc (a b c : string) : (a +:+ b) +:+ c = a +:+ (b +:+ c).
Proof.
  induction a as [|x a IH]; [reflexivity|].
  rewrite !string_app_cons. now rewrite IH.
Qed.

Lemma char_in_app c (a b : string) :
  char_in c (a +:+ b) = char_in c a || char_in c b.
Proof.
  induction a as [|x a IH]; [reflexivity|].
  rewrite string_app_cons. cbn [char_in].
  destruct (Ascii.eqb c x); [reflexivity|exact IH].
Qed.

Lemma single_line_app (a b : string) :
  single_line (a +:+ b) = single_line a && single_line b.
Proof. unfold single_line. rewrite char_in_app. now destruct (char_in LF a). Qed.

Lemma split_on_line (l rest : string) :
  single_line l = true ->
  split_on LF (l +:+ NL +:+ rest) = l :: split_on LF rest.
Proof.
  unfold single_line. induction l as [|x l IH]; intros Hl.
  - reflexivity.
  - cbn [char_in] in Hl. rewrite string_app_cons. cbn [split_on].
    destruct (Ascii.eqb LF x) eqn:Hx; [discriminate|].
    rewrite Ascii.eqb_sym, Hx. now rewrite IH.
Qed.

Lemma lines_unlines (ls : list string) :
  forallb single_line ls = true -> lines (unlines ls) = ls ++ [""].
Proof.
  unfold lines. induction ls as [|l ls IH]; intros Hls; [reflexivity|].
  cbn [forallb] in Hls. apply andb_true_iff in Hls as [Hl Hls].
  cbn [unlines foldr]. rewrite split_on_line by exact Hl.
  fold (unlines ls). now rewrite IH.
Qed.

Lemma unlines_app (a b : list string) :
  unlines (a ++ b) = unlines a +:+ unlines b.
Proof.
  induction a as [|l a IH]; [reflexivity|].
  cbn [app unlines foldr]. fold (unlines (a ++ b)) (unlines a).
  now rewrite IH, !string_app_assoc.
Qed.

Lemma plain_text_unlines ls : forallb plain_line ls = true -> plain_text (unlines ls).
Proof. intros H. now exists ls. Qed.

Lemma plain_text_app a b : plain_text a -> plain_text b -> plain_text (a +:+ b).
Proof.
  intros (la & -> & Ha) (lb & -> & Hb). exists (la ++ lb). split.
  - now rewrite unlines_app.
  - now rewrite forallb_app, Ha, Hb.
Qed.

Lemma plain_text_no_ci_lines s : plain_text s -> no_ci_lines s = true.
Proof.
  intros (ls & -> & Hls). unfold no_ci_lines. rewrite lines_unlines.
  - rewrite forallb_app. apply andb_true_iff. split; [|reflexivity].
    apply forallb_forall. intros l Hl.
    apply (proj1 (forallb_forall _ _) Hls) in Hl. unfold plain_line in Hl.
    apply andb_true_iff in Hl as [Hl Hb]. apply andb_true_iff in Hl as [_ Hc].
    now rewrite Hc, Hb.
  - apply forallb_forall. intros l Hl.
    apply (proj1 (forallb_forall _ _) Hls) in Hl. unfold plain_line in Hl.
    apply andb_true_iff in Hl as [Hl _]. now apply andb_true_iff in Hl as [Hl _].
Qed.

Lemma detect_ci_absent (env : gmap string string) :
  Forall (fun var => env !! var = None) CI_VARIABLES -> detect_ci env = no_ci.
Proof.
  intros H. unfold CI_VARIABLES in H.
  repeat (apply Forall_cons in H as [? H]).
  unfold detect_ci, in_environ. now repeat match goal with
    | E : env !! _ = None |- _ => rewrite E; clear E end.
Qed.

Ltac single_line_parts :=
  rewrite ?single_line_app;
  repeat (apply andb_true_iff; split); first [assumption | reflexivity].

Ltac plain_lines :=
  cbn [forallb]; repeat (apply andb_true_iff; split);
  first [ reflexivity | single_line_parts ].

Lemma site_readme_header_plain site :
  single_line (ms_name site) = true ->
  plain_text (site_readme_header no_ci site).
Proof.
  intros Hname. apply plain_text_unlines.
  change (commit_block no_ci) with "". change (build_block no_ci) with "".
  plain_lines.
Qed.

Lemma element_readme_plain element :
  single_line (me_name element) = true ->
  plain_text (element_readme no_ci element).
Proof.
  intros Hname. apply plain_text_unlines.
  change (commit_block no_ci) with "". change (build_block no_ci) with "".
  plain_lines.
Qed.

Lemma interface_readme_header_plain element :
  single_line (me_name element) = true ->
  plain_text (interface_readme_header no_ci element).
Proof.
  intros Hname. apply plain_text_unlines.
  change (commit_block no_ci) with "". change (build_block no_ci) with "".
  plain_lines.
Qed.

Lemma interface_entry_plain interface :
  single_line_interface interface = true ->
  plain_text (interface_entry interface).
Proof.
  intros H. apply andb_true_iff in H as [Hname Hfs].
  apply plain_text_unlines. unfold img. plain_lines.
Qed.

Lemma element_item_plain element :
  single_line (me_name element) = true ->
  single_line (me_fs_name element) = true ->
  plain_text (element_item element).
Proof.
  intros Hname Hfs. apply plain_text_unlines. unfold anchor. plain_lines.
Qed.

Lemma interface_entries_plain interfaces text :
  forallb single_line_interface interfaces = true ->
  plain_text text ->
  plain_text (fold_left (fun interface_readme_md interface =>
                           interface_readme_md +:+ interface_entry interface)
                        interfaces text).
Proof.
  revert text. induction interfaces as [|i interfaces IH]; intros text Hs Ht;
    cbn [fold_left]; [exact Ht|].
  cbn [forallb] in Hs. apply andb_true_iff in Hs as [Hi Hs].
  apply IH; [exact Hs|]. apply plain_text_app; [exact Ht|].
  now apply interface_entry_plain.
Qed.

Lemma interface_readme_plain element :
  single_line_element element = true ->
  plain_text (interface_readme no_ci element).
Proof.
  intros H. unfold single_line_element in H.
  apply andb_true_iff in H as [H Hifs]. apply andb_true_iff in H as [Hname _].
  unfold interface_readme. apply interface_entries_plain; [exact Hifs|].
  now apply interface_readme_header_plain.
Qed.

(** ** The emitter *)

Section Delivers.

Variable P : string -> Prop.

Lemma writes_only_refl st : writes_only P st st.
Proof. intros p c H. now left. Qed.

Lemma writes_only_trans st1 st2 st3 :
  writes_only P st1 st2 -> writes_only P st2 st3 -> writes_only P st1 st3.
Proof.
  intros H12 H23 p c H. destruct (H23 p c H) as [H2|HP]; [|now right].
  exact (H12 p c H2).
Qed.

Lemma delivers_ret {A} (a : A) (Q : A -> Prop) : Q a -> delivers P (ret a) Q.
Proof.
  intros HQ st. split; [apply writes_only_refl|].
  intros a' H. cbn in H. now injection H as <-.
Qed.

Lemma delivers_bind {A B} (m : M A) (k : A -> M B) (Q : A -> Prop)
    (R : B -> Prop) :
  delivers P m Q -> (forall a, Q a -> delivers P (k a) R) ->
  delivers P (bind m k) R.
Proof.
  intros Hm Hk st. destruct (Hm st) as [Hw HQ]. unfold bind.
  destruct (m st) as [[a|e|c] st'] eqn:E; cbn [fst snd] in *.
  - destruct (Hk a (HQ a eq_refl) st') as [Hw' HR]. split.
    + exact (writes_only_trans _ _ _ Hw Hw').
    + exact HR.
  - split; [exact Hw|discriminate].
  - split; [exact Hw|discriminate].
Qed.

Lemma delivers_emit ev : delivers P (emit ev) (fun _ => True).
Proof. intros st. split; [|trivial]. intros p c H. left. exact H. Qed.

Lemma delivers_ci_print text end_ color :
  delivers P (ci_print text end_ color) (fun _ => True).
Proof. apply delivers_emit. Qed.

Lemma delivers_write_file filename content :
  P content -> delivers P (write_file filename content) (fun _ => True).
Proof.
  intros HP st. split; [|trivial].
  unfold write_file, on_fs, open_write.
  destruct (last (components filename)) as [leaf|]; [|apply writes_only_refl].
  destruct (walk_dirs _ _ _ _) as [e|d]; [apply writes_only_refl|].
  destruct (is_dir _ _); [apply writes_only_refl|].
  intros p c. cbn [snd fs files].
  destruct (decide (enter d leaf = p)) as [<-|Hne].
  - rewrite lookup_insert_eq. intros [= <-]. now right.
  - rewrite lookup_insert_ne by exact Hne. now left.
Qed.

Lemma delivers_for_fold {A S} (l : list A) (body : S -> A -> M S)
    (I : S -> Prop) (acc : S) :
  I acc ->
  (forall acc x, In x l -> I acc -> delivers P (body acc x) I) ->
  delivers P (for_fold l acc body) I.
Proof.
  revert acc. induction l as [|x l IH]; intros acc Hacc Hbody; cbn [for_fold].
  - now apply delivers_ret.
  - apply (delivers_bind _ _ I).
    + apply Hbody; [now left|exact Hacc].
    + intros acc' Hacc'. apply IH; [exact Hacc'|].
      intros acc0 y Hy. apply Hbody. now right.
Qed.

End Delivers.

Lemma delivers_emit_element site text element :
  single_line_element element = true ->
  plain_text text ->
  delivers free_of_ci_lines (emit_element no_ci site text element) plain_text.
Proof.
  intros Hel Htext. pose proof Hel as Hel'. unfold single_line_element in Hel'.
  apply andb_true_iff in Hel' as [Hel' _].
  apply andb_true_iff in Hel' as [Hname Hfs].
  unfold emit_element, done_.
  apply (delivers_bind _ _ _ (fun _ => True)); [apply delivers_ci_print|intros _ _].
  apply (delivers_bind _ _ _ (fun _ => True)).
  { apply delivers_write_file, plain_text_no_ci_lines.
    now apply interface_readme_plain. }
  intros _ _.
  apply (delivers_bind _ _ _ (fun _ => True)); [apply delivers_ci_print|intros _ _].
  apply (delivers_bind _ _ _ (fun _ => True)); [apply delivers_ci_print|intros _ _].
  apply (delivers_bind _ _ _ (fun _ => True)).
  { apply delivers_write_file, plain_text_no_ci_lines.
    now apply element_readme_plain. }
  intros _ _.
  apply (delivers_bind _ _ _ (fun _ => True)); [apply delivers_ci_print|intros _ _].
  apply delivers_ret. apply plain_text_app; [exact Htext|].
  now apply element_item_plain.
Qed.

Lemma delivers_emit_site site :
  single_line_site site = true ->
  delivers free_of_ci_lines (emit_site no_ci site) (fun _ => True).
Proof.
  intros Hsite. unfold single_line_site in Hsite.
  apply andb_true_iff in Hsite as [Hsite Hels].
  apply andb_true_iff in Hsite as [Hname Hfs].
  unfold emit_site, done_.
  apply (delivers_bind _ _ _ plain_text).
  { apply delivers_for_fold.
    - now apply site_readme_header_plain.
    - intros text element Hin Htext. apply delivers_emit_element; [|exact Htext].
      exact (proj1 (forallb_forall _ _) Hels element Hin). }
  intros text Htext.
  apply (delivers_bind _ _ _ (fun _ => True)); [apply delivers_ci_print|intros _ _].
  apply (delivers_bind _ _ _ (fun _ => True)).
  { apply delivers_write_file, plain_text_no_ci_lines.
    apply plain_text_app; [exact Htext|]. now apply plain_text_unlines. }
  intros _ _. apply delivers_ci_print.
Qed.

(** C9: when none of the CI variables is in the environment, the commit and
    build paragraphs of the templates are empty, and no file that the
    emitter writes has a commit line or a build line (names are taken to
    hold no line break). *)
Theorem no_ci_variables_no_ci_lines (env : gmap string string)
    (markdown_index : list md_site) (st : state) :
  Forall (fun var => env !! var = None) CI_VARIABLES ->
  forallb single_line_site markdown_index = true ->
  commit_block (detect_ci env) = "" /\
  build_block (detect_ci env) = "" /\
  forall p content,
    files (fs (snd (emit_markdown (detect_ci env) markdown_index st))) !! p
      = Some content ->
    files (fs st) !! p = Some content \/ no_ci_lines content = true.
Proof.
  intros Henv Hindex. rewrite (detect_ci_absent env Henv).
  split; [reflexivity|]. split; [reflexivity|].
  assert (H : delivers free_of_ci_lines (emit_markdown no_ci markdown_index)
                       (fun _ => True)).
  { unfold emit_markdown, for_each. apply delivers_for_fold; [trivial|].
    intros [] site Hin _. apply delivers_emit_site.
    exact (proj1 (forallb_forall _ _) Hindex site Hin). }
  exact (proj1 (H st)).
Qed.

(** ** The script on the sample world *)

(** With one interface the run goes through and leaves the three READMEs. *)
Example run_with_one_interface :
  let r := run (Sample.world [Sample.lan]) Sample.empty_fs in
  fst r = Returned tt /\
  forallb (is_file (fs (snd r)))
    [["screenshots"; "S"; "README.md"];
     ["screenshots"; "S"; "E"; "README.md"];
     ["screenshots"; "S"; "E"; "interfaces"; "README.md"]] = true /\
  is_dir (fs (snd r)) ["screenshots"; "S"; "E"; "interfaces"] = true.
Proof. vm_compute. repeat split; reflexivity. Qed.

(** C1: the script on a site with one element for which the SDK returns no
    interface.  In an empty working directory the capture loop creates no
    interfaces directory, and the emitter then fails to open
    interfaces/README.md: the run ends in FileNotFoundError with no README
    written at all.  On the tree of an earlier run, where the directory
    exists, the run goes through and the emitter writes interfaces/README.md,
    holding the header only. *)
Theorem zero_interfaces_run :
  let fresh := run (Sample.world []) Sample.empty_fs in
  let again := run (Sample.world []) Sample.earlier_tree in
  (fst fresh =
     Raised (FileNotFoundError "screenshots/S/E/interfaces/README.md") /\
   is_dir (fs (snd fresh)) ["screenshots"; "S"; "E"] = true /\
   is_dir (fs (snd fresh)) ["screenshots"; "S"; "E"; "interfaces"] = false /\
   map_to_list (files (fs (snd fresh))) = []) /\
  (fst again = Returned tt /\
   files (fs (snd again)) !! ["screenshots"; "S"; "E"; "interfaces"; "README.md"] =
     Some (interface_readme_header no_ci (mkMdElement "E" "E" []))).
Proof. vm_compute. repeat split; reflexivity. Qed.


(** The same claim fails on a number too large for a time as well: [int]
    casts '10000000000', and [time.sleep] refuses it with OverflowError. *)
Example overflowing_timed_wait_raises :
  int_of_str (Sample.world []) "10000000000" = Some 10000000000 /\
  screenshot_page (Sample.world []) "https://portal.us.cloudgenix.com/#map"
    "screenshots/map.png" (PyStr "time") "10000000000" None None 15 1
    Sample.start =
  (Raised OverflowError,
   emitted Sample.start [DriverGet "https://portal.us.cloudgenix.com/#map"]).
Proof. split; vm_compute; reflexivity. Qed.



(** ** The theorems at work on the sample world *)


Lemma sites_dict_mirrors_config_example :
  NoDup (map fst (Sample.lookup_versioned Sample.config "sites")) /\
  build_sites_dict (Sample.world []) Sample.config = [("S", ["E"])].
Proof.
  assert (H : NoDup (map fst (Sample.lookup_versioned Sample.config "sites"))).
  { vm_compute. apply NoDup_singleton. }
  split; [exact H|].
  exact (proj1 (sites_dict_mirrors_config (Sample.world []) Sample.config H)).
Defined.

Lemma fatal_failures_exit_1_example :
  environ Sample.world_without_token !! "AUTH_TOKEN" = None /\
  exists message more,
    run Sample.world_without_token Sample.empty_fs =
      (Exited 1,
       mkState (Stdout (red +:+ message +:+ NL +:+ nc) :: more) Sample.empty_fs) /\
    String.prefix "ERROR: " message = true /\
    forallb is_stdout more = true.
Proof.
  split; [vm_compute; reflexivity|].
  apply fatal_failures_exit_1. left. vm_compute; reflexivity.
Defined.




Lemma no_ci_variables_no_ci_lines_example :
  let env := environ (Sample.world [Sample.lan]) in
  let st := mkState [] Sample.earlier_tree in
  commit_block (detect_ci env) = "" /\
  build_block (detect_ci env) = "" /\
  forall p content,
    files (fs (snd (emit_markdown (detect_ci env) Sample.index st))) !! p
      = Some content ->
    files (fs st) !! p = Some content \/ no_ci_lines content = true.
Proof.
  apply no_ci_variables_no_ci_lines.
  - repeat constructor; vm_compute; reflexivity.
  - vm_compute; reflexivity.
Defined.

(** ** Rules for fragments *)

Section Behaves.

Context (R : state -> state -> Prop) `{!PreOrder R} (E : exn -> Prop).

Lemma behaves_ret {A} (a : A) (Q : A -> Prop) : Q a -> behaves R E (ret a) Q.
Proof. intros HQ st. split; [reflexivity|exact HQ]. Qed.

Lemma behaves_bind {A B} (m : M A) (k : A -> M B) (Q : A -> Prop)
    (Q' : B -> Prop) :
  behaves R E m Q -> (forall a, Q a -> behaves R E (k a) Q') ->
  behaves R E (bind m k) Q'.
Proof.
  intros Hm Hk st. destruct (Hm st) as [HR HQ]. unfold bind.
  destruct (m st) as [[a|e|c] st1]; cbn [fst snd] in *.
  - destruct (Hk a HQ st1) as [HR' HQ']. split; [|exact HQ'].
    now transitivity st1.
  - now split.
  - now split.
Qed.

Lemma behaves_seq {A B} (m : M A) (k : M B) (Q : A -> Prop) (Q' : B -> Prop) :
  behaves R E m Q -> behaves R E k Q' -> behaves R E (bind m (fun _ => k)) Q'.
Proof. intros Hm Hk. apply (behaves_bind _ _ Q); [exact Hm|]. now intros _ _. Qed.

Lemma behaves_post {A} (m : M A) (Q Q' : A -> Prop) :
  behaves R E m Q -> (forall a, Q a -> Q' a) -> behaves R E m Q'.
Proof.
  intros Hm HQ st. destruct (Hm st) as [HR H]. split; [exact HR|].
  destruct (fst (m st)); auto.
Qed.

Lemma behaves_emit ev :
  (forall st, R st (emitted st [ev])) -> behaves R E (emit ev) (fun _ => True).
Proof. intros H st. split; [apply H|exact I]. Qed.

Lemma behaves_on_fs op :
  (forall st fs', op (fs st) = inr fs' -> R st (mkState (trace st) fs')) ->
  (forall fs0 e, op fs0 = inl e -> E e) ->
  behaves R E (on_fs op) (fun _ => True).
Proof.
  intros Hok Herr st. unfold on_fs.
  destruct (op (fs st)) as [e|fs'] eqn:Hop; cbn [fst snd].
  - split; [reflexivity|]. exact (Herr _ _ Hop).
  - split; [|exact I]. now apply Hok.
Qed.

Lemma behaves_for_fold {A S} (l : list A) (body : S -> A -> M S)
    (I : S -> Prop) (acc : S) :
  I acc ->
  (forall acc x, In x l -> I acc -> behaves R E (body acc x) I) ->
  behaves R E (for_fold l acc body) I.
Proof.
  revert acc. induction l as [|x l IH]; intros acc Hacc Hbody; cbn [for_fold].
  - now apply behaves_ret.
  - apply (behaves_bind _ _ I).
    + apply Hbody; [now left|exact Hacc].
    + intros acc' Hacc'. apply IH; [exact Hacc'|].
      intros acc0 y Hy. apply Hbody. now right.
Qed.

End Behaves.

(** ** Settings among appended events *)

Lemma last_setting_app {V} (f : event -> option V) evs1 evs2 :
  last_setting f (evs1 ++ evs2) =
  match last_setting f evs2 with
  | Some v => Some v
  | None => last_setting f evs1
  end.
Proof.
  unfold last_setting. rewrite omap_app.
  destruct (omap f evs2) as [|v l] using rev_ind.
  - now rewrite app_nil_r.
  - rewrite app_assoc, !last_snoc. reflexivity.
Qed.

#[global] Instance cumulative_leaves_at {V} (f : event -> option V) (v : V) :
  Cumulative (leaves_at f v).
Proof.
  split.
  - now left.
  - intros e1 e2 H1 H2. unfold leaves_at in *. rewrite last_setting_app.
    destruct H2 as [->| ->]; [exact H1|now right].
Qed.

(** ** More on screenshot_page *)

Lemma click_target_accounting W cx xa xb s r st :
  cx = xa \/ cx = xb ->
  exists evs s',
    click_target W cx (s, r) st =
      (Returned (s', (r + requested cx)%nat), emitted st evs) /\
    s' = (s + count_events is_click evs)%nat /\
    (count_events is_click evs <= requested cx)%nat /\
    Forall (attempt_on xa xb) evs.
Proof.
  intros Hcx. destruct cx as [xpath|]; cbn [click_target requested fst snd].
  - assert (Hat : forall ev, ev = DriverFind xpath \/ ev = DriverClick xpath ->
                             attempt_on xa xb ev).
    { intros ev Hev. exists xpath. split; [|exact Hev].
      destruct Hcx as [<-| <-]; auto. }
    unfold try_except, bind, history. rewrite emit_spec. cbn [trace emitted].
    destruct (xpath_matches W (trace st ++ [DriverFind xpath])) as [|n].
    + exists [DriverFind xpath], s. cbn [is_IndexError]. unfold ret.
      repeat split.
      * now rewrite Nat.add_1_r.
      * cbn. lia.
      * cbn. lia.
      * repeat constructor. apply Hat. now left.
    + rewrite emit_spec, emitted_emitted. unfold ret.
      exists [DriverFind xpath; DriverClick xpath], (S s). repeat split.
      * now rewrite Nat.add_1_r.
      * cbn. lia.
      * cbn. lia.
      * repeat constructor; apply Hat; auto.
  - exists [], s. unfold ret. rewrite emitted_nil, Nat.add_0_r. repeat split.
    + cbn. lia.
    + cbn. lia.
    + constructor.
Qed.

Lemma count_events_app p evs1 evs2 :
  count_events p (evs1 ++ evs2) =
  (count_events p evs1 + count_events p evs2)%nat.
Proof. unfold count_events. now rewrite List.filter_app, length_app. Qed.

Lemma click_and_capture_accounting W start out cx1 cx2 tweak st :
  exists attempts text,
    click_and_capture W start out cx1 cx2 tweak st =
      match sleep_refusal tweak with
      | Some e =>
          (Raised e,
           emitted st
             ([DriverImplicitlyWait 0] ++ attempts ++
              (if truthy cx1 || truthy cx2
               then [Stdout (ci_print_output
                               (click_status (count_events is_click attempts,
                                              (requested cx1 + requested cx2)%nat))
                               "" None)]
               else []) ++
              [DriverImplicitlyWait 25]))
      | None =>
          (Returned tt,
           emitted st
             ([DriverImplicitlyWait 0] ++ attempts ++
              (if truthy cx1 || truthy cx2
               then [Stdout (ci_print_output
                               (click_status (count_events is_click attempts,
                                              (requested cx1 + requested cx2)%nat))
                               "" None)]
               else []) ++
              [DriverImplicitlyWait 25; Sleep tweak;
               DriverScreenshot out; Stdout text]))
      end /\
    Forall (attempt_on cx1 cx2) attempts /\
    (count_events is_click attempts <= requested cx1 + requested cx2)%nat.
Proof.
  unfold click_and_capture.
  rewrite (bind_returned _ _ _ _ _ (emit_spec _ _)).
  destruct (click_target_accounting W cx1 cx1 cx2 O O
              (emitted st [DriverImplicitlyWait 0]) (or_introl eq_refl))
    as (evs1 & s1 & E1 & -> & L1 & F1).
  cbn [Nat.add] in E1. rewrite (bind_returned _ _ _ _ _ E1).
  destruct (click_target_accounting W cx2 cx1 cx2
              (count_events is_click evs1) (requested cx1)
              (emitted (emitted st [DriverImplicitlyWait 0]) evs1)
              (or_intror eq_refl))
    as (evs2 & s2 & E2 & -> & L2 & F2).
  rewrite (bind_returned _ _ _ _ _ E2).
  set (status := if truthy cx1 || truthy cx2
                 then [Stdout (ci_print_output
                         (click_status
                            ((count_events is_click evs1 +
                              count_events is_click evs2)%nat,
                             (requested cx1 + requested cx2)%nat)) "" None)]
                 else []).
  assert (Hstatus : forall s,
    (if truthy cx1 || truthy cx2
     then ci_print (click_status
                      ((count_events is_click evs1 +
                        count_events is_click evs2)%nat,
                       (requested cx1 + requested cx2)%nat)) "" None
     else ret tt) s = (Returned tt, emitted s status)).
  { intros s. subst status. destruct (truthy cx1 || truthy cx2).
    - apply ci_print_spec.
    - unfold ret. now rewrite emitted_nil. }
  rewrite (bind_returned _ _ _ _ _ (Hstatus _)).
  rewrite (bind_returned _ _ _ _ _ (emit_spec _ _)).
  unfold bind at 1. rewrite time_sleep_shape, !emitted_emitted.
  exists (evs1 ++ evs2).
  rewrite count_events_app. fold status.
  destruct (sleep_refusal tweak) as [e|].
  - exists "". split; [|split].
    + f_equal. f_equal. rewrite <- !app_assoc. reflexivity.
    + now apply Forall_app.
    + lia.
  - rewrite (bind_returned _ _ _ _ _ (emit_spec _ _)).
    unfold bind, history. rewrite ci_print_spec, !emitted_emitted.
    eexists. split; [|split].
    + f_equal. f_equal. rewrite <- !app_assoc. reflexivity.
    + now apply Forall_app.
    + lia.
Qed.

Lemma wait_until_located_shape W by_ value load_wait st :
  wait_until_located W by_ value load_wait st =
  (if wait_located W (trace st ++ [DriverWait by_ value load_wait])
   then Returned tt else Raised TimeoutException,
   emitted st [DriverWait by_ value load_wait]).
Proof.
  unfold wait_until_located, bind, history. rewrite emit_spec.
  cbn [trace emitted].
  now destruct (wait_located W (trace st ++ [DriverWait by_ value load_wait])).
Qed.

Lemma load_and_wait_shape W page_uri waitfor waitfor_value load_wait st :
  exists waits,
    load_and_wait W page_uri waitfor waitfor_value load_wait st =
      (match wait_refusal W waitfor waitfor_value with
       | Some e => Raised e
       | None => Returned tt
       end,
       emitted st (DriverGet page_uri :: waits)) /\
    forallb wait_phase_event waits = true /\
    (wait_refusal W waitfor waitfor_value <> None -> waits = []).
Proof.
  unfold load_and_wait, try_except.
  rewrite (bind_returned _ _ _ _ _ (emit_spec _ _)).
  assert (Hnone :
    exists waits,
      (Returned tt, emitted st [DriverGet page_uri]) =
      (@Returned unit tt, emitted st (DriverGet page_uri :: waits)) /\
      forallb wait_phase_event waits = true /\
      (@None exn <> None -> waits = [])).
  { exists []. repeat split; congruence. }
  unfold wait_refusal.
  destruct waitfor as [w| |]; cbn [wait_strategy timed_wait];
    [|exact Hnone..].
  assert (Hwait : forall by_,
    exists waits,
      match wait_until_located W by_ waitfor_value load_wait
              (emitted st [DriverGet page_uri]) with
      | (Raised e, st') =>
          if is_TimeoutException e
          then ci_print (timeout_warning page_uri (PyStr w) waitfor_value
                                         load_wait) NL (Some "yellow") st'
          else (Raised e, st')
      | r => r
      end = (Returned tt, emitted st (DriverGet page_uri :: waits)) /\
      forallb wait_phase_event waits = true /\
      (@None exn <> None -> waits = [])).
  { intros by_. rewrite wait_until_located_shape.
    destruct (wait_located W _).
    - rewrite emitted_emitted. eexists [_]. repeat split; congruence.
    - cbn [is_TimeoutException]. rewrite ci_print_spec, !emitted_emitted.
      eexists [_; _]. repeat split; congruence. }
  destruct (String.eqb_spec (lower w) "class") as [Hw|_].
  { rewrite Hw. exact (Hwait By_CLASS_NAME). }
  destruct (String.eqb_spec (lower w) "id") as [Hw|_].
  { rewrite Hw. exact (Hwait By_ID). }
  destruct (String.eqb_spec (lower w) "time") as [_|_]; [|exact Hnone].
  unfold is_int, int_cast.
  destruct (int_of_str W waitfor_value) as [n|]; [|exact Hnone].
  unfold bind, ret. rewrite time_sleep_shape.
  destruct (sleep_refusal n) as [e|] eqn:Hn.
  - assert (He : is_TimeoutException e = false).
    { unfold sleep_refusal in Hn. destruct (_ || _); [now injection Hn as <-|].
      destruct (n <? 0); [now injection Hn as <-|discriminate]. }
    rewrite He. exists []. repeat split.
  - rewrite emitted_emitted. eexists [_]. repeat split; congruence.
Qed.

Lemma screenshot_page_shape W page_uri output_filename waitfor waitfor_value
    click_xpath click_xpath2 load_wait load_tweak_delay st :
  exists waits attempts text,
    screenshot_page W page_uri output_filename waitfor waitfor_value
                    click_xpath click_xpath2 load_wait load_tweak_delay st =
      match wait_refusal W waitfor waitfor_value with
      | Some e => (Raised e, emitted st [DriverGet page_uri])
      | None =>
          match sleep_refusal load_tweak_delay with
          | Some e =>
              (Raised e,
               emitted st
                 (DriverGet page_uri :: waits ++
                  [DriverImplicitlyWait 0] ++ attempts ++
                  (if truthy click_xpath || truthy click_xpath2
                   then [Stdout (ci_print_output
                           (click_status
                              (count_events is_click attempts,
                               (requested click_xpath +
                                requested click_xpath2)%nat))
                           "" None)]
                   else []) ++
                  [DriverImplicitlyWait 25]))
          | None =>
              (Returned tt,
               emitted st
                 (DriverGet page_uri :: waits ++
                  [DriverImplicitlyWait 0] ++ attempts ++
                  (if truthy click_xpath || truthy click_xpath2
                   then [Stdout (ci_print_output
                           (click_status
                              (count_events is_click attempts,
                               (requested click_xpath +
                                requested click_xpath2)%nat))
                           "" None)]
                   else []) ++
                  [DriverImplicitlyWait 25; Sleep load_tweak_delay;
                   DriverScreenshot output_filename; Stdout text]))
          end
      end /\
    forallb wait_phase_event waits = true /\
    Forall (attempt_on click_xpath click_xpath2) attempts /\
    (count_events is_click attempts <=
     requested click_xpath + requested click_xpath2)%nat.
Proof.
  destruct (load_and_wait_shape W page_uri waitfor waitfor_value load_wait st)
    as (waits & Hload & Hwaits & Hrefused).
  destruct (click_and_capture_accounting W (trace st) output_filename
              click_xpath click_xpath2 load_tweak_delay
              (emitted st (DriverGet page_uri :: waits)))
    as (attempts & text & E & F & L).
  exists waits, attempts, text. split; [|auto].
  destruct (wait_refusal W waitfor waitfor_value) as [e|].
  - unfold screenshot_page, bind, history.
    rewrite Hload, Hrefused by discriminate. reflexivity.
  - unfold screenshot_page, bind at 1, history.
    rewrite (bind_returned _ _ _ _ _ Hload), E.
    destruct (sleep_refusal load_tweak_delay);
      rewrite emitted_emitted; reflexivity.
Qed.

(** The shape of a call in which [time.sleep] refuses nothing. *)
Lemma screenshot_page_accepted W page_uri output_filename waitfor
    waitfor_value click_xpath click_xpath2 load_wait load_tweak_delay st :
  wait_refusal W waitfor waitfor_value = None ->
  0 <= load_tweak_delay <= PYTIME_MAX_SECONDS ->
  exists waits attempts text,
    screenshot_page W page_uri output_filename waitfor waitfor_value
                    click_xpath click_xpath2 load_wait load_tweak_delay st =
      (Returned tt,
       emitted st
         (DriverGet page_uri :: waits ++
          [DriverImplicitlyWait 0] ++ attempts ++
          (if truthy click_xpath || truthy click_xpath2
           then [Stdout (ci_print_output
                   (click_status
                      (count_events is_click attempts,
                       (requested click_xpath + requested click_xpath2)%nat))
                   "" None)]
           else []) ++
          [DriverImplicitlyWait 25; Sleep load_tweak_delay;
           DriverScreenshot output_filename; Stdout text])) /\
    forallb wait_phase_event waits = true /\
    Forall (attempt_on click_xpath click_xpath2) attempts /\
    (count_events is_click attempts <=
     requested click_xpath + requested click_xpath2)%nat.
Proof.
  intros Hwait Htweak.
  destruct (screenshot_page_shape W page_uri output_filename waitfor
              waitfor_value click_xpath click_xpath2 load_wait
              load_tweak_delay st) as (waits & attempts & text & H & R).
  rewrite Hwait, (sleep_refusal_accepted _ Htweak) in H.
  now exists waits, attempts, text.
Qed.

Lemma count_events_none p evs :
  Forall (fun ev => p ev = false) evs -> count_events p evs = O.
Proof.
  unfold count_events. induction 1 as [|ev evs Hev _ IH]; [reflexivity|].
  cbn [List.filter]. now rewrite Hev.
Qed.

Lemma attempt_on_not p cx1 cx2 evs :
  (forall x, p (DriverFind x) = false) -> (forall x, p (DriverClick x) = false) ->
  Forall (attempt_on cx1 cx2) evs -> Forall (fun ev => p ev = false) evs.
Proof.
  intros Hf Hc H. eapply Forall_impl; [exact H|].
  intros ev (x & _ & [-> | ->]); auto.
Qed.

Lemma wait_phase_not p evs :
  (forall ev, wait_phase_event ev = true -> p ev = false) ->
  forallb wait_phase_event evs = true -> Forall (fun ev => p ev = false) evs.
Proof.
  intros Hp H. apply Forall_forall. intros ev Hin.
  apply Hp. apply (proj1 (forallb_forall _ _) H). now apply list_elem_of_In.
Qed.

Lemma screenshot_files_none evs :
  Forall (fun ev => is_screenshot ev = false) evs -> screenshot_files evs = [].
Proof.
  induction 1 as [|ev evs Hev _ IH]; [reflexivity|].
  cbn [screenshot_files omap]. destruct ev; try discriminate; exact IH.
Qed.

Lemma screenshot_files_app evs1 evs2 :
  screenshot_files (evs1 ++ evs2) =
  screenshot_files evs1 ++ screenshot_files evs2.
Proof. unfold screenshot_files. apply omap_app. Qed.










(** ** Rules for fragments that always return *)

Lemma returns_ret {A} (a : A) (Q : A -> list event -> Prop) :
  Q a [] -> returns (ret a) Q.
Proof. intros HQ st. exists a, []. now rewrite emitted_nil. Qed.

Lemma returns_bind {A B} (m : M A) (k : A -> M B)
    (Q1 : A -> list event -> Prop) (Q2 : B -> list event -> Prop) :
  returns m Q1 ->
  (forall a evs1, Q1 a evs1 ->
     returns (k a) (fun b evs2 => Q2 b (evs1 ++ evs2))) ->
  returns (bind m k) Q2.
Proof.
  intros Hm Hk st. destruct (Hm st) as (a & evs1 & E1 & H1).
  destruct (Hk a evs1 H1 (emitted st evs1)) as (b & evs2 & E2 & H2).
  exists b, (evs1 ++ evs2). rewrite (bind_returned _ _ _ _ _ E1), E2.
  now rewrite emitted_emitted.
Qed.

Lemma returns_emit ev (Q : unit -> list event -> Prop) :
  Q tt [ev] -> returns (emit ev) Q.
Proof. intros HQ st. now exists tt, [ev]. Qed.

Lemma returns_ci_print text end_ color (Q : unit -> list event -> Prop) :
  Q tt [Stdout (ci_print_output text end_ color)] ->
  returns (ci_print text end_ color) Q.
Proof. apply returns_emit. Qed.

Lemma returns_post {A} (m : M A) (Q Q' : A -> list event -> Prop) :
  returns m Q -> (forall a evs, Q a evs -> Q' a evs) -> returns m Q'.
Proof.
  intros Hm HQ st. destruct (Hm st) as (a & evs & E & H).
  exists a, evs. auto.
Qed.

(** A loop whose body always returns: [J done acc evs] relates the items
    done so far to the accumulator and the events of the loop. *)
Lemma returns_for_fold {A S} (body : S -> A -> M S)
    (J : list A -> S -> list event -> Prop) (l done : list A) (acc : S)
    (evs : list event) :
  J done acc evs ->
  (forall done acc evs x,
     J done acc evs ->
     returns (body acc x) (fun acc' evs' => J (done ++ [x]) acc' (evs ++ evs'))) ->
  returns (for_fold l acc body) (fun acc' evs' => J (done ++ l) acc' (evs ++ evs')).
Proof.
  intros HJ Hbody. revert done acc evs HJ.
  induction l as [|x l IH]; intros done acc evs HJ; cbn [for_fold].
  - apply returns_ret. now rewrite !app_nil_r.
  - eapply returns_bind; [exact (Hbody _ _ _ x HJ)|].
    intros acc' evs' HJ'. cbv beta in HJ'.
    eapply returns_post; [exact (IH _ _ _ HJ')|].
    intros a e H. cbv beta in H. now rewrite <- !app_assoc in H.
Qed.

(** ** Rules for every outcome *)

Lemma ends_ret {A} (a : A) (Q : outcome A -> list event -> Prop) :
  Q (Returned a) [] -> ends (ret a) Q.
Proof. intros HQ st. exists []. cbn. now rewrite app_nil_r. Qed.

Lemma ends_bind {A B} (m : M A) (k : A -> M B)
    (Q1 : outcome A -> list event -> Prop)
    (Q2 : outcome B -> list event -> Prop) :
  ends m Q1 ->
  (forall a evs1, Q1 (Returned a) evs1 ->
     ends (k a) (fun o evs2 => Q2 o (evs1 ++ evs2))) ->
  (forall e evs1, Q1 (Raised e) evs1 -> Q2 (Raised e) evs1) ->
  (forall c evs1, Q1 (Exited c) evs1 -> Q2 (Exited c) evs1) ->
  ends (bind m k) Q2.
Proof.
  intros Hm Hk Hr Hx st. destruct (Hm st) as (evs1 & T1 & H1). unfold bind.
  destruct (m st) as [[a|e|c] st1]; cbn [fst snd] in *.
  - destruct (Hk a evs1 H1 st1) as (evs2 & T2 & H2).
    exists (evs1 ++ evs2). split; [|exact H2]. now rewrite T2, T1, app_assoc.
  - exists evs1. auto.
  - exists evs1. auto.
Qed.

Lemma ends_bind_returns {A B} (m : M A) (k : A -> M B)
    (Q1 : A -> list event -> Prop) (Q2 : outcome B -> list event -> Prop) :
  returns m Q1 ->
  (forall a evs1, Q1 a evs1 ->
     ends (k a) (fun o evs2 => Q2 o (evs1 ++ evs2))) ->
  ends (bind m k) Q2.
Proof.
  intros Hm Hk st. destruct (Hm st) as (a & evs1 & E1 & H1).
  rewrite (bind_returned _ _ _ _ _ E1).
  destruct (Hk a evs1 H1 (emitted st evs1)) as (evs2 & T2 & H2).
  exists (evs1 ++ evs2). split; [|exact H2].
  rewrite T2. cbn [emitted trace]. now rewrite app_assoc.
Qed.

Lemma returns_ends {A} (m : M A) (Q1 : A -> list event -> Prop)
    (Q2 : outcome A -> list event -> Prop) :
  returns m Q1 -> (forall a evs, Q1 a evs -> Q2 (Returned a) evs) -> ends m Q2.
Proof.
  intros Hm HQ st. destruct (Hm st) as (a & evs & E & H).
  exists evs. rewrite E. cbn [fst snd emitted trace]. auto.
Qed.

Lemma ends_post {A} (m : M A) (Q Q' : outcome A -> list event -> Prop) :
  ends m Q -> (forall o evs, Q o evs -> Q' o evs) -> ends m Q'.
Proof.
  intros Hm HQ st. destruct (Hm st) as (evs & T & H). exists evs. auto.
Qed.

Lemma mkdir_from_error name cur cs fs0 e :
  mkdir_from name cur cs fs0 = inl e -> is_mkdir_error e.
Proof.
  revert cur fs0. induction cs as [|c cs IH]; intros cur fs0; cbn [mkdir_from].
  - discriminate.
  - destruct (is_dir fs0 (enter cur c)); [apply IH|].
    destruct (is_file fs0 (enter cur c)); [|apply IH].
    intros [= <-]. now destruct cs.
Qed.

Lemma mkdir_from_grows name cur cs fs0 fs' :
  mkdir_from name cur cs fs0 = inr fs' ->
  files fs' = files fs0 /\ dirs fs0 ⊆ dirs fs'.
Proof.
  revert cur fs0. induction cs as [|c cs IH]; intros cur fs0; cbn [mkdir_from].
  - intros [= <-]. split; reflexivity.
  - destruct (is_dir fs0 (enter cur c)); [apply IH|].
    destruct (is_file fs0 (enter cur c)); [discriminate|].
    intros H. apply IH in H as [Hf Hd]. cbn [files dirs] in *.
    split; [exact Hf|]. intros p Hp. apply Hd, elem_of_union. now right.
Qed.

Lemma ends_mkdir name (Q : outcome unit -> list event -> Prop) :
  Q (Returned tt) [] ->
  (forall e, is_mkdir_error e -> Q (Raised e) []) ->
  ends (on_fs (mkdir_parents name)) Q.
Proof.
  intros Hok Herr st. exists []. rewrite app_nil_r. unfold on_fs.
  destruct (mkdir_parents name (fs st)) as [e|fs'] eqn:E; cbn [fst snd trace].
  - split; [reflexivity|]. apply Herr. exact (mkdir_from_error _ _ _ _ _ E).
  - split; [reflexivity|exact Hok].
Qed.

Lemma ends_after_mkdir {B} name (k : unit -> M B)
    (Q : outcome B -> list event -> Prop) :
  ends (k tt) Q ->
  (forall e, is_mkdir_error e -> Q (Raised e) []) ->
  ends (bind (on_fs (mkdir_parents name)) k) Q.
Proof.
  intros Hk Herr.
  apply (ends_bind _ _
           (fun (o : outcome unit) (evs : list event) => evs = [] /\
              match o with
              | Returned _ => True
              | Raised e => is_mkdir_error e
              | Exited _ => False
              end)).
  - apply ends_mkdir; auto.
  - intros [] evs1 [-> _]. exact Hk.
  - intros e evs1 [-> He]. now apply Herr.
  - intros c evs1 [_ []].
Qed.

(** ** Chunks of page events *)

Lemma chunk_nil : chunk [] [].
Proof. repeat split. now left. Qed.

Lemma chunk_app f1 f2 evs1 evs2 :
  chunk f1 evs1 -> chunk f2 evs2 -> chunk (f1 ++ f2) (evs1 ++ evs2).
Proof.
  intros (P1 & I1 & F1) (P2 & I2 & F2). split; [|split].
  - now rewrite forallb_app, P1.
  - now apply cumulative_app.
  - now rewrite screenshot_files_app, F1, F2.
Qed.

Lemma chunk_stdout text : chunk [] [Stdout text].
Proof. repeat split. now left. Qed.

Lemma last_setting_none {V} (f : event -> option V) evs :
  Forall (fun ev => f ev = None) evs -> last_setting f evs = None.
Proof.
  unfold last_setting. induction 1 as [|ev evs Hev _ IH]; [reflexivity|].
  cbn [omap list_omap]. now rewrite Hev.
Qed.

Lemma page_events_keep_window evs :
  forallb page_event evs = true -> last_setting window_size_of evs = None.
Proof.
  intros H. apply last_setting_none, Forall_forall. intros ev Hin.
  apply list_elem_of_In in Hin.
  apply (proj1 (forallb_forall _ _) H) in Hin. now destruct ev.
Qed.

Lemma page_events_are_capture_events evs :
  forallb page_event evs = true -> forallb capture_event evs = true.
Proof.
  intros H. apply forallb_forall. intros ev Hin.
  apply (proj1 (forallb_forall _ _) H) in Hin. now destruct ev.
Qed.

Lemma chunk_stable f evs : chunk f evs -> stable evs.
Proof.
  intros (P & I & _). split; [|split].
  - now apply page_events_are_capture_events.
  - exact I.
  - left. now apply page_events_keep_window.
Qed.

#[global] Instance cumulative_stable : Cumulative stable.
Proof.
  split.
  - repeat split; now left.
  - intros e1 e2 (C1 & I1 & W1) (C2 & I2 & W2). split; [|split].
    + now rewrite forallb_app, C1.
    + now apply cumulative_app.
    + now apply cumulative_app.
Qed.

(** A chunk between the resize for the interfaces screen and the resize
    back. *)
Lemma resized_chunk_stable f evs :
  chunk f evs ->
  stable ([DriverSetWindowSize 1920 2160] ++ evs ++
          [DriverSetWindowSize 1920 1080]).
Proof.
  intros (P & I & _). split; [|split].
  - rewrite !forallb_app, (page_events_are_capture_events _ P). reflexivity.
  - apply (cumulative_app (P := leaves_at implicit_wait_of DEFAULT_IMPLICIT_WAIT));
      [now left|].
    apply (cumulative_app (P := leaves_at implicit_wait_of DEFAULT_IMPLICIT_WAIT));
      [exact I|now left].
  - right. rewrite app_assoc, last_setting_app. reflexivity.
Qed.

Lemma resized_chunk_files f evs :
  chunk f evs ->
  screenshot_files ([DriverSetWindowSize 1920 2160] ++ evs ++
                    [DriverSetWindowSize 1920 1080]) = f.
Proof.
  intros (_ & _ & F). rewrite !screenshot_files_app, F. cbn.
  now rewrite app_nil_r.
Qed.

(** ** The capture loop, fragment by fragment *)

(** The two lengths of a call of the script are accepted: the script
    waits for a class and passes a settle delay of 1 or 8. *)
Ltac sleeps_accepted := first [reflexivity | unfold PYTIME_MAX_SECONDS; lia].

Lemma screenshot_page_chunk W page_uri output_filename waitfor waitfor_value
    click_xpath click_xpath2 load_wait load_tweak_delay :
  wait_refusal W waitfor waitfor_value = None ->
  0 <= load_tweak_delay <= PYTIME_MAX_SECONDS ->
  returns (screenshot_page W page_uri output_filename waitfor waitfor_value
             click_xpath click_xpath2 load_wait load_tweak_delay)
          (fun _ evs => chunk [output_filename] evs).
Proof.
  intros Hok Htweak st.
  destruct (screenshot_page_accepted W page_uri output_filename waitfor
              waitfor_value click_xpath click_xpath2 load_wait
              load_tweak_delay st Hok Htweak)
    as (waits & attempts & text & -> & Hw & Ha & _).
  set (status := if truthy click_xpath || truthy click_xpath2 then _ else _).
  assert (Hs : exists l, status = map Stdout l).
  { subst status. destruct (truthy _ || truthy _).
    - now eexists [_].
    - now exists []. }
  destruct Hs as (l & ->).
  exists tt. eexists. split; [reflexivity|]. split; [|split].
  - cbn [forallb page_event andb]. rewrite !forallb_app.
    repeat (apply andb_true_iff; split); try reflexivity.
    + apply forallb_forall. intros ev Hin.
      apply (proj1 (forallb_forall _ _) Hw) in Hin. now destruct ev.
    + apply forallb_forall. intros ev Hin. apply list_elem_of_In in Hin.
      apply (proj1 (Forall_forall _ _) Ha) in Hin
        as (x & _ & [-> | ->]); reflexivity.
    + apply forallb_forall. intros ev Hin.
      apply in_map_iff in Hin as (t & <- & _). reflexivity.
  - right. rewrite app_comm_cons, !app_assoc, last_setting_app. reflexivity.
  - rewrite app_comm_cons, !screenshot_files_app.
    rewrite (screenshot_files_none (DriverGet page_uri :: waits)),
            (screenshot_files_none attempts),
            (screenshot_files_none (map Stdout l)).
    + reflexivity.
    + apply Forall_forall. intros ev Hin. apply list_elem_of_In in Hin.
      apply in_map_iff in Hin as (t & <- & _). reflexivity.
    + now apply (attempt_on_not _ click_xpath click_xpath2).
    + constructor; [reflexivity|].
      apply wait_phase_not; [|exact Hw]. now intros [].
Qed.

Lemma ci_print_chunk text end_ color :
  returns (ci_print text end_ color) (fun _ evs => chunk [] evs).
Proof. apply returns_ci_print, chunk_stdout. Qed.

Lemma element_page_chunk W element_name what uri filename value load_wait :
  returns (element_page W element_name what uri filename value load_wait)
          (fun _ evs => chunk [filename] evs).
Proof.
  unfold element_page, done_.
  eapply returns_bind; [apply ci_print_chunk|]. intros ? e1 H1; cbv beta in H1.
  eapply returns_bind; [apply screenshot_page_chunk; sleeps_accepted|]. intros ? e2 H2; cbv beta in H2.
  eapply returns_post; [apply ci_print_chunk|]. intros ? e3 H3; cbv beta in H3. cbv beta.
  exact (chunk_app [] _ _ _ H1 (chunk_app [filename] [] _ _ H2 H3)).
Qed.

Lemma capture_interface_chunk W element_id interface_directory interfaces r :
  returns (capture_interface W element_id interface_directory interfaces r)
          (fun interfaces' evs =>
             interfaces' = interfaces ++ [interface_record r] /\
             chunk [interface_directory +:+ mi_fs_name (interface_record r) +:+
                    ".png"] evs).
Proof.
  unfold capture_interface, done_.
  eapply returns_bind; [apply ci_print_chunk|]. intros ? e1 H1; cbv beta in H1.
  eapply returns_bind; [apply screenshot_page_chunk; sleeps_accepted|]. intros ? e2 H2; cbv beta in H2.
  eapply returns_bind; [apply ci_print_chunk|]. intros ? e3 H3; cbv beta in H3.
  apply returns_ret. split; [reflexivity|]. rewrite app_nil_r.
  exact (chunk_app [] _ _ _ H1 (chunk_app [_] [] _ _ H2 H3)).
Qed.

Lemma interface_screenshots_app d l1 l2 :
  interface_screenshots d (l1 ++ l2) =
  interface_screenshots d l1 ++ interface_screenshots d l2.
Proof. apply map_app. Qed.

Lemma capture_interface_loop W element_id interface_directory l :
  returns (for_fold l [] (capture_interface W element_id interface_directory))
          (fun interfaces evs =>
             interfaces = map interface_record l /\
             chunk (interface_screenshots interface_directory interfaces) evs).
Proof.
  eapply returns_post.
  - apply (returns_for_fold _
             (fun done acc evs =>
                acc = map interface_record done /\
                chunk (interface_screenshots interface_directory acc) evs)
             l [] [] []).
    + split; [reflexivity|apply chunk_nil].
    + intros done acc evs r [-> Hc].
      eapply returns_post; [apply capture_interface_chunk|].
      intros acc' evs' [-> Hc']. cbv beta. split.
      * now rewrite map_app.
      * rewrite interface_screenshots_app. now apply chunk_app.
  - intros a evs H. exact H.
Qed.

Lemma capture_interfaces_ends W site_id element_id element_directory :
  ends (capture_interfaces W site_id element_id element_directory)
       (outcome_of
          (fun interfaces evs =>
             interfaces =
               map interface_record
                   (sorted_by_name (get_interfaces W site_id element_id)) /\
             screenshot_files evs =
               interface_screenshots
                 (element_directory +:+ "interfaces" +:+ "/") interfaces)
          is_mkdir_error).
Proof.
  unfold capture_interfaces.
  destruct (get_interfaces W site_id element_id) as [|i l] eqn:Hl.
  - cbn [length Nat.leb]. apply ends_ret. split; [apply cumulative_nil|].
    split; reflexivity.
  - cbn [length Nat.leb]. rewrite <- Hl. clear Hl.
    apply ends_after_mkdir.
    + apply ends_bind_returns with (Q1 := fun _ evs => evs = [DriverSetWindowSize 1920 2160]).
      { now apply returns_emit. }
      intros ? e1 ->.
      eapply ends_bind_returns; [apply capture_interface_loop|].
      intros interfaces e2 [-> Hc]. cbv beta.
      apply ends_bind_returns with (Q1 := fun _ evs => evs = [DriverSetWindowSize 1920 1080]).
      { now apply returns_emit. }
      intros ? e3 ->. apply ends_ret. rewrite app_nil_r.
      split; [now apply (resized_chunk_stable _ _ Hc)|].
      split; [reflexivity|]. now apply resized_chunk_files.
    + intros e He. split; [apply cumulative_nil|exact He].
Qed.

Lemma captured_ret {A} (a : A) (QV : A -> list string -> Prop) :
  QV a [] -> ends (ret a) (captured QV).
Proof. intros H. apply ends_ret. split; [apply cumulative_nil|exact H]. Qed.

Lemma captured_step {A B} (m : M A) (k : A -> M B)
    (QV1 : A -> list string -> Prop) (QV : B -> list string -> Prop) :
  ends m (captured QV1) ->
  (forall a f1, QV1 a f1 ->
     ends (k a) (captured (fun b f2 => QV b (f1 ++ f2)))) ->
  ends (bind m k) (captured QV).
Proof.
  intros Hm Hk. apply (ends_bind _ _ (captured QV1)); [exact Hm| | |].
  - intros a evs1 [S1 H1]. eapply ends_post; [exact (Hk a _ H1)|].
    intros o evs2 [S2 H2]. split; [now apply cumulative_app|].
    destruct o; [|exact H2..]. now rewrite screenshot_files_app.
  - intros e evs1 H. exact H.
  - intros c evs1 [_ []].
Qed.

Lemma captured_chunk {A B} (m : M A) (k : A -> M B) (f : list string)
    (QV : B -> list string -> Prop) :
  returns m (fun _ evs => chunk f evs) ->
  (forall a, ends (k a) (captured (fun b f2 => QV b (f ++ f2)))) ->
  ends (bind m k) (captured QV).
Proof.
  intros Hm Hk. apply (captured_step _ _ (fun _ f1 => f1 = f)).
  - eapply returns_ends; [exact Hm|]. intros a evs H. cbv beta in H.
    split; [exact (chunk_stable _ _ H)|]. now destruct H as (_ & _ & ->).
  - intros a f1 ->. apply Hk.
Qed.

Lemma captured_mkdir {B} name (k : unit -> M B)
    (QV : B -> list string -> Prop) :
  ends (k tt) (captured QV) ->
  ends (bind (on_fs (mkdir_parents name)) k) (captured QV).
Proof.
  intros Hk. apply ends_after_mkdir; [exact Hk|].
  intros e He. split; [apply cumulative_nil|exact He].
Qed.

(** The resize for the interfaces screen, a page, and the resize back. *)
Lemma captured_resized {A B} (m : M A) (k : M B) (f : list string)
    (QV : B -> list string -> Prop) :
  returns m (fun _ evs => chunk f evs) ->
  ends k (captured (fun b f2 => QV b (f ++ f2))) ->
  ends (emit (DriverSetWindowSize 1920 2160);; m;;
        emit (DriverSetWindowSize 1920 1080);; k) (captured QV).
Proof.
  intros Hm Hk.
  apply ends_bind_returns
    with (Q1 := fun _ evs => evs = [DriverSetWindowSize 1920 2160]).
  { now apply returns_emit. }
  intros ? e1 ->.
  eapply ends_bind_returns; [exact Hm|]. intros ? e2 Hc. cbv beta in Hc.
  apply ends_bind_returns
    with (Q1 := fun _ evs => evs = [DriverSetWindowSize 1920 1080]).
  { now apply returns_emit. }
  intros ? e3 ->. eapply ends_post; [exact Hk|].
  intros o evs [S H]. rewrite !app_assoc. split.
  - apply cumulative_app; [|exact S]. rewrite <- app_assoc.
    exact (resized_chunk_stable _ _ Hc).
  - destruct o; [|exact H..]. rewrite screenshot_files_app, <- app_assoc.
    now rewrite (resized_chunk_files _ _ Hc).
Qed.

Lemma captured_post {A} (m : M A) (QV QV' : A -> list string -> Prop) :
  ends m (captured QV) -> (forall a f, QV a f -> QV' a f) ->
  ends m (captured QV').
Proof.
  intros Hm HQ. eapply ends_post; [exact Hm|].
  intros o evs [S H]. split; [exact S|]. destruct o; auto.
Qed.

Lemma capture_interfaces_captured W site_id element_id element_directory :
  ends (capture_interfaces W site_id element_id element_directory)
       (captured
          (fun interfaces f =>
             interfaces =
               map interface_record
                   (sorted_by_name (get_interfaces W site_id element_id)) /\
             f = interface_screenshots
                   (element_directory +:+ "interfaces" +:+ "/") interfaces)).
Proof. apply capture_interfaces_ends. Qed.

Lemma capture_element_captured W site_id site_directory elements element_name :
  ends (capture_element W site_id site_directory elements element_name)
       (captured
          (fun elements' f =>
             elements' = elements ++ expected_element W site_id element_name /\
             f = concat (map (element_screenshots site_directory)
                             (expected_element W site_id element_name)))).
Proof.
  unfold capture_element, expected_element.
  destruct (elements_n2id W !! element_name) as [element_id|].
  - apply captured_mkdir.
    do 5 (eapply captured_chunk; [apply element_page_chunk|]; intros []).
    eapply captured_chunk; [apply ci_print_chunk|]. intros [].
    eapply captured_resized; [apply screenshot_page_chunk; sleeps_accepted|].
    eapply captured_chunk; [apply ci_print_chunk|]. intros [].
    do 6 (eapply captured_chunk; [apply element_page_chunk|]; intros []).
    eapply captured_step; [apply capture_interfaces_captured|].
    intros interfaces f [-> ->]. apply captured_ret.
    split; [reflexivity|]. cbn [map concat element_screenshots me_fs_name
                                me_interfaces ELEMENT_PAGES app].
    now rewrite !app_nil_r.
  - eapply captured_chunk; [apply ci_print_chunk|]. intros [].
    apply captured_ret. split; [now rewrite app_nil_r|reflexivity].
Qed.

(** A loop that appends records to a list and requests files, item by
    item. *)
Lemma captured_for_fold {A V} (body : list V -> A -> M (list V))
    (records : A -> list V) (requested_files : A -> list string)
    (l : list A) (acc : list V) :
  (forall acc x,
     ends (body acc x)
          (captured (fun acc' f =>
                       acc' = acc ++ records x /\ f = requested_files x))) ->
  ends (for_fold l acc body)
       (captured (fun acc' f =>
                    acc' = acc ++ concat (map records l) /\
                    f = concat (map requested_files l))).
Proof.
  intros Hbody. revert acc. induction l as [|x l IH]; intros acc;
    cbn [for_fold map concat].
  - apply captured_ret. now rewrite app_nil_r.
  - eapply captured_step; [apply Hbody|]. intros acc' f [-> ->].
    eapply captured_post; [apply IH|]. intros a f [-> ->].
    now rewrite <- app_assoc.
Qed.

Lemma capture_site_captured W markdown_index item :
  ends (capture_site W markdown_index item)
       (captured
          (fun markdown_index' f =>
             markdown_index' = markdown_index ++ expected_site W item /\
             f = concat (map site_screenshots (expected_site W item)))).
Proof.
  unfold capture_site, expected_site.
  destruct (sites_n2id W !! fst item) as [site_id|].
  - apply captured_mkdir.
    eapply captured_chunk; [apply ci_print_chunk|]. intros [].
    eapply captured_chunk; [apply screenshot_page_chunk; sleeps_accepted|]. intros [].
    eapply captured_chunk; [apply ci_print_chunk|]. intros [].
    eapply captured_step.
    { apply (captured_for_fold _ (expected_element W site_id)
               (fun element_name =>
                  concat (map (element_screenshots
                                 ("screenshots/" +:+
                                  sanitize_filename (fst item) +:+ "/"))
                              (expected_element W site_id element_name)))).
      intros acc x. apply capture_element_captured. }
    intros elements f [-> ->]. apply captured_ret.
    split; [reflexivity|].
    cbn [map concat site_screenshots ms_fs_name ms_elements app].
    rewrite !app_nil_r. f_equal.
    induction (snd item) as [|x l IH]; [reflexivity|].
    cbn [map concat]. now rewrite map_app, concat_app, IH.
  - eapply captured_chunk; [apply ci_print_chunk|]. intros [].
    apply captured_ret. split; [now rewrite app_nil_r|reflexivity].
Qed.

Lemma capture_sites_captured W sites_dict markdown_index :
  ends (capture_sites W sites_dict markdown_index)
       (captured
          (fun markdown_index' f =>
             markdown_index' = markdown_index ++ expected_index W sites_dict /\
             f = index_screenshots (expected_index W sites_dict))).
Proof.
  unfold capture_sites, expected_index, index_screenshots.
  eapply captured_post.
  - apply (captured_for_fold _ (expected_site W)
             (fun item => concat (map site_screenshots (expected_site W item)))).
    intros acc x. apply capture_site_captured.
  - intros a f [-> ->]. split; [reflexivity|].
    induction sites_dict as [|x l IH]; [reflexivity|].
    cbn [map concat]. now rewrite map_app, concat_app, IH.
Qed.

(** ** The file system during the capture loop *)

#[global] Instance grows_preorder : PreOrder grows.
Proof.
  split.
  - intros st. split; reflexivity.
  - intros st1 st2 st3 [F12 D12] [F23 D23]. split; [congruence|].
    now transitivity (dirs (fs st2)).
Qed.

Lemma returns_behaves {A} (R : state -> state -> Prop) (E : exn -> Prop)
    (m : M A) (Q : A -> list event -> Prop) :
  (forall st evs, R st (emitted st evs)) ->
  returns m Q -> behaves R E m (fun _ => True).
Proof.
  intros HR Hm st. destruct (Hm st) as (a & evs & -> & _).
  split; [apply HR|exact I].
Qed.

Lemma grows_emitted st evs : grows st (emitted st evs).
Proof. split; reflexivity. Qed.

Lemma behaves_mkdir name :
  behaves grows is_mkdir_error (on_fs (mkdir_parents name)) (fun _ => True).
Proof.
  apply behaves_on_fs.
  - apply _.
  - intros st fs' H. exact (mkdir_from_grows _ _ _ _ _ H).
  - intros fs0 e H. exact (mkdir_from_error _ _ _ _ _ H).
Qed.

Ltac grows_returns lem :=
  apply (returns_behaves grows is_mkdir_error _ _ grows_emitted lem).

Lemma capture_interfaces_grows W site_id element_id element_directory :
  behaves grows is_mkdir_error
    (capture_interfaces W site_id element_id element_directory) (fun _ => True).
Proof.
  unfold capture_interfaces. destruct (1 <=? _)%nat.
  - eapply behaves_seq; [apply _|apply behaves_mkdir|].
    eapply behaves_seq;
      [apply _|(apply behaves_emit; intros ?; apply grows_emitted)|].
    eapply behaves_bind; [apply _| |].
    + grows_returns (capture_interface_loop W element_id
                       (element_directory +:+ "interfaces" +:+ "/")
                       (sorted_by_name (get_interfaces W site_id element_id))).
    + intros interfaces _.
      eapply behaves_seq;
        [apply _|(apply behaves_emit; intros ?; apply grows_emitted)|].
      apply behaves_ret; [apply _|exact I].
  - apply behaves_ret; [apply _|exact I].
Qed.

Lemma element_page_grows W element_name what uri filename value load_wait :
  behaves grows is_mkdir_error
    (element_page W element_name what uri filename value load_wait)
    (fun _ => True).
Proof. grows_returns (element_page_chunk W element_name what uri filename value load_wait). Qed.

Lemma screenshot_page_class_grows W uri filename value cx1 cx2 lw tw :
  0 <= tw <= PYTIME_MAX_SECONDS ->
  behaves grows is_mkdir_error
    (screenshot_page W uri filename (PyStr "class") value cx1 cx2 lw tw)
    (fun _ => True).
Proof.
  intros Htw.
  grows_returns (screenshot_page_chunk W uri filename (PyStr "class") value
                   cx1 cx2 lw tw eq_refl Htw).
Qed.

Lemma ci_print_grows text end_ color :
  behaves grows is_mkdir_error (ci_print text end_ color) (fun _ => True).
Proof. (apply behaves_emit; intros ?; apply grows_emitted). Qed.

Ltac grows_step :=
  eapply behaves_seq;
  [ apply _
  | first [ apply behaves_mkdir | apply element_page_grows
          | (apply screenshot_page_class_grows; sleeps_accepted)
          | apply ci_print_grows
          | (apply behaves_emit; intros ?; apply grows_emitted) ]
  | ].

Lemma capture_element_grows W site_id site_directory elements element_name :
  behaves grows is_mkdir_error
    (capture_element W site_id site_directory elements element_name)
    (fun _ => True).
Proof.
  unfold capture_element, done_.
  destruct (elements_n2id W !! element_name) as [element_id|].
  - repeat grows_step.
    eapply behaves_bind; [apply _|apply capture_interfaces_grows|].
    intros interfaces _. apply behaves_ret; [apply _|exact I].
  - grows_step. apply behaves_ret; [apply _|exact I].
Qed.

Lemma capture_site_grows W markdown_index item :
  behaves grows is_mkdir_error (capture_site W markdown_index item)
          (fun _ => True).
Proof.
  unfold capture_site, done_.
  destruct (sites_n2id W !! fst item) as [site_id|].
  - repeat grows_step.
    eapply behaves_bind; [apply _| |].
    + apply behaves_for_fold with (I := fun _ => True); [apply _|exact I|].
      intros acc x _ _. apply capture_element_grows.
    + intros elements _. apply behaves_ret; [apply _|exact I].
  - grows_step. apply behaves_ret; [apply _|exact I].
Qed.

Lemma capture_sites_grows W sites_dict markdown_index :
  behaves grows is_mkdir_error (capture_sites W sites_dict markdown_index)
          (fun _ => True).
Proof.
  unfold capture_sites.
  apply behaves_for_fold with (I := fun _ => True); [apply _|exact I|].
  intros acc x _ _. apply capture_site_grows.
Qed.

(** ** The capture loop as a whole *)

(** X8: when the capture loop returns, the index has grown by exactly the
    records the configuration and the lookups call for: one record per
    known site, in order, with its known elements, in order, each with its
    interfaces sorted by name; every record carries the sanitized form of
    its name.  What the browser did has no part in it. *)
Theorem capture_builds_expected_index W sites_dict markdown_index st
    markdown_index' st' :
  capture_sites W sites_dict markdown_index st = (Returned markdown_index', st') ->
  markdown_index' = markdown_index ++ expected_index W sites_dict.
Proof.
  intros E. destruct (capture_sites_captured W sites_dict markdown_index st)
    as (evs & _ & _ & H).
  rewrite E in H. exact (proj1 H).
Qed.

(** X9: when the capture loop returns, the screenshots it has requested are
    exactly those of the records it has added, in order: the site card of
    each site, the twelve pages of each element, and one image per
    interface. *)
Theorem capture_requests_index_screenshots W sites_dict markdown_index st
    markdown_index' st' :
  capture_sites W sites_dict markdown_index st = (Returned markdown_index', st') ->
  exists evs,
    trace st' = trace st ++ evs /\
    screenshot_files evs = index_screenshots (expected_index W sites_dict).
Proof.
  intros E. destruct (capture_sites_captured W sites_dict markdown_index st)
    as (evs & T & _ & H).
  rewrite E in T, H. exists evs. split; [exact T|exact (proj2 H)].
Qed.


(** X11: the capture loop never exits and never removes a directory:
    however it ends, every directory that was there is still there. *)
Theorem capture_keeps_directories W sites_dict markdown_index st :
  let r := capture_sites W sites_dict markdown_index st in
  match fst r with
  | Exited _ => False
  | _ => True
  end /\
  dirs (fs st) ⊆ dirs (fs (snd r)).
Proof.
  destruct (capture_sites_grows W sites_dict markdown_index st) as [[F D] H].
  cbv zeta. split; [|assumption].
  destruct (fst _); auto.
Qed.


(** ** More on the emitter *)

#[global] Instance prints_and_writes_preorder : PreOrder prints_and_writes.
Proof.
  split.
  - intros st. split; [reflexivity|]. exists []. now rewrite app_nil_r.
  - intros st1 st2 st3 [D12 (e1 & T1 & S1)] [D23 (e2 & T2 & S2)].
    split; [congruence|]. exists (e1 ++ e2). split.
    + now rewrite T2, T1, app_assoc.
    + now rewrite forallb_app, S1.
Qed.

Lemma walk_dirs_error name cur cs fs0 e :
  walk_dirs name cur cs fs0 = inl e -> is_open_error e.
Proof.
  revert cur. induction cs as [|c cs IH]; intros cur; cbn [walk_dirs].
  - discriminate.
  - destruct (is_dir fs0 (enter cur c)); [apply IH|].
    destruct (is_file fs0 (enter cur c)); now intros [= <-].
Qed.

Lemma open_write_error name content fs0 e :
  open_write name content fs0 = inl e -> is_open_error e.
Proof.
  unfold open_write. destruct (last (components name)); [|now intros [= <-]].
  destruct (walk_dirs _ _ _ _) as [e'|d] eqn:Hw.
  - intros [= <-]. exact (walk_dirs_error _ _ _ _ _ Hw).
  - destruct (is_dir fs0 _); [now intros [= <-]|discriminate].
Qed.

Lemma open_write_dirs name content fs0 fs' :
  open_write name content fs0 = inr fs' -> dirs fs' = dirs fs0.
Proof.
  unfold open_write. destruct (last (components name)); [|discriminate].
  destruct (walk_dirs _ _ _ _); [discriminate|].
  destruct (is_dir fs0 _); [discriminate|]. now intros [= <-].
Qed.

Lemma write_file_prints_and_writes filename content :
  behaves prints_and_writes is_open_error (write_file filename content)
          (fun _ => True).
Proof.
  apply behaves_on_fs.
  - apply _.
  - intros st fs' H. split.
    + exact (open_write_dirs _ _ _ _ H).
    + exists []. now rewrite app_nil_r.
  - intros fs0 e H. exact (open_write_error _ _ _ _ H).
Qed.

Lemma ci_print_prints_and_writes text end_ color :
  behaves prints_and_writes is_open_error (ci_print text end_ color)
          (fun _ => True).
Proof.
  apply behaves_emit. intros st. split; [reflexivity|]. now eexists [_].
Qed.

Ltac emitter_step :=
  eapply behaves_seq;
  [ apply _
  | first [ apply ci_print_prints_and_writes
          | apply write_file_prints_and_writes ]
  | ].

Lemma emit_element_prints_and_writes ci site text element :
  behaves prints_and_writes is_open_error (emit_element ci site text element)
          (fun text' => text' = text +:+ element_item element).
Proof.
  unfold emit_element, done_. repeat emitter_step.
  apply behaves_ret; [apply _|reflexivity].
Qed.

Lemma string_concat_cons (x : string) (l : list string) :
  String.concat "" (x :: l) = x +:+ String.concat "" l.
Proof.
  destruct l as [|y l]; cbn [String.concat]; [|reflexivity].
  now rewrite string_app_nil_r.
Qed.

Lemma emit_elements_prints_and_writes ci site elements text :
  behaves prints_and_writes is_open_error
    (for_fold elements text (emit_element ci site))
    (fun text' =>
       text' = text +:+ String.concat "" (map element_item elements)).
Proof.
  revert text. induction elements as [|e l IH]; intros text; cbn [for_fold map].
  - apply behaves_ret; [apply _|]. now rewrite string_app_nil_r.
  - eapply behaves_bind; [apply _|apply emit_element_prints_and_writes|].
    intros text' ->. eapply behaves_post; [apply IH|].
    intros t ->. now rewrite string_concat_cons, string_app_assoc.
Qed.

Lemma emit_site_prints_and_writes ci site :
  behaves prints_and_writes is_open_error (emit_site ci site) (fun _ => True).
Proof.
  unfold emit_site, done_.
  eapply behaves_bind; [apply _|apply emit_elements_prints_and_writes|].
  intros text _. repeat emitter_step. apply ci_print_prints_and_writes.
Qed.

Lemma emit_markdown_prints_and_writes ci markdown_index :
  behaves prints_and_writes is_open_error (emit_markdown ci markdown_index)
          (fun _ => True).
Proof.
  unfold emit_markdown, for_each.
  apply behaves_for_fold with (I := fun _ => True); [apply _|exact I|].
  intros [] site _ _. apply emit_site_prints_and_writes.
Qed.




(** ** The script as a whole *)

Lemma returns_history (Q : list event -> list event -> Prop) :
  (forall h, Q h []) -> returns history Q.
Proof.
  intros HQ st. exists (trace st), []. rewrite emitted_nil. now split.
Qed.

Lemma emit_markdown_ends ci markdown_index :
  ends (emit_markdown ci markdown_index)
       (fun o evs =>
          forallb is_stdout evs = true /\
          match o with
          | Returned _ => True
          | Raised e => is_open_error e
          | Exited _ => False
          end).
Proof.
  intros st.
  destruct (emit_markdown_prints_and_writes ci markdown_index st)
    as [[_ (evs & T & S)] O].
  exists evs. split; [exact T|]. split; [exact S|exact O].
Qed.

Lemma ci_print_returns text end_ color :
  returns (ci_print text end_ color)
          (fun _ evs => evs = [Stdout (ci_print_output text end_ color)]).
Proof. now apply returns_ci_print. Qed.

Lemma emit_returns ev : returns (emit ev) (fun _ evs => evs = [ev]).
Proof. now apply returns_emit. Qed.

Lemma captured_run_ends W token config script_start :
  ends
    (ci_print ("    Loaded Config File " +:+ nth 1 (argv W) "" +:+ ".") NL None;;
     emit (DriverStart ["headless"; "window-size=1920x1080"]);;
     emit (DriverImplicitlyWait DEFAULT_IMPLICIT_WAIT);;
     emit (DriverHeaderOverrides token);;
     let* screenshot_start := history in
     ci_print "    Logging in and taking topology screenshot: " "" None;;
     screenshot_page W (UI_TOPOLOGY_PAGE (controller_region W))
       "screenshots/map.png" (PyStr "class") "leaflet-map-pane"
       (Some XPATH_CLOSE_WHATS_NEW) None 15 8;;
     done_;;
     let* markdown_index :=
       capture_sites W (build_sites_dict W config) [] in
     emit DriverClose;;
     let* screenshot_stop := history in
     ci_print "    Creating changed item Markdown Indexes.." NL (Some "white");;
     emit_markdown (detect_ci (environ W)) markdown_index;;
     let* script_stop := history in
     ci_print ("    File " +:+ nth 1 (argv W) "" +:+
               " completed. Screenshot time: " +:+
               elapsed W screenshot_start screenshot_stop +:+
               "s, Total elapsed time: " +:+ elapsed W script_start script_stop +:+
               "s") NL None)
    (captured_run W token config).
Proof.
  unfold done_.
  eapply ends_bind_returns; [apply ci_print_returns|]. intros ? ? ->.
  eapply ends_bind_returns; [apply emit_returns|]. intros ? ? ->.
  eapply ends_bind_returns; [apply emit_returns|]. intros ? ? ->.
  eapply ends_bind_returns; [apply emit_returns|]. intros ? ? ->.
  eapply ends_bind_returns with (Q1 := fun _ evs => evs = []);
    [now apply returns_history|]. intros screenshot_start ? ->.
  eapply ends_bind_returns; [apply ci_print_chunk|]. intros ? e1 H1.
  cbv beta in H1.
  eapply ends_bind_returns; [apply screenshot_page_chunk; sleeps_accepted|].
  intros ? e2 H2. cbv beta in H2.
  eapply ends_bind_returns; [apply ci_print_chunk|]. intros ? e3 H3.
  cbv beta in H3.
  pose proof (chunk_app _ _ _ _ H1 (chunk_app _ _ _ _ H2 H3)) as Hmap.
  cbn [app] in Hmap.
  eapply ends_bind; [apply capture_sites_captured| | |].
  - (* the capture loop has returned *)
    intros markdown_index e4 [S4 [_ F4]].
    assert (Hpages : stable (e1 ++ e2 ++ e3 ++ e4) /\
                     screenshot_files (e1 ++ e2 ++ e3 ++ e4) =
                     run_screenshots W config).
    { rewrite !app_assoc, <- (app_assoc e1). split.
      - apply cumulative_app; [exact (chunk_stable _ _ Hmap)|exact S4].
      - rewrite screenshot_files_app, F4.
        now destruct Hmap as (_ & _ & ->). }
    destruct Hpages as [Hstable Hfiles].
    eapply ends_bind_returns; [apply emit_returns|]. intros ? ? ->.
    eapply ends_bind_returns with (Q1 := fun _ evs => evs = []);
      [now apply returns_history|]. intros screenshot_stop ? ->.
    eapply ends_bind_returns; [apply ci_print_returns|]. intros ? ? ->.
    eapply ends_bind; [apply emit_markdown_ends| | |].
    + intros [] e5 [S5 _].
      eapply ends_bind_returns with (Q1 := fun _ evs => evs = []);
        [now apply returns_history|]. intros script_stop ? ->.
      eapply returns_ends; [apply ci_print_returns|].
      intros [] ? ->. eexists _, (e1 ++ e2 ++ e3 ++ e4), _.
      split; [|split; [exact Hstable|split; [exact Hfiles|]]].
      * cbn [app browser_setup]. rewrite <- !app_assoc. cbn [app]. reflexivity.
      * eexists. split; [reflexivity|].
        cbn [forallb is_stdout andb]. rewrite forallb_app, S5. reflexivity.
    + intros e e5 [S5 He].
      eexists _, (e1 ++ e2 ++ e3 ++ e4), _.
      split; [|split; [exact Hstable|right; split; [exact He|split; [exact Hfiles|]]]].
      * cbn [app browser_setup]. rewrite <- !app_assoc. cbn [app]. reflexivity.
      * eexists. split; [reflexivity|]. cbn [forallb is_stdout andb]. exact S5.
    + intros c e5 [_ []].
  - (* mkdir has failed *)
    intros e e4 [S4 He]. eexists _, (e1 ++ e2 ++ e3 ++ e4), [].
    split; [|split; [|left; now split]].
    + cbn [app browser_setup]. rewrite <- !app_assoc, app_nil_r. reflexivity.
    + rewrite !app_assoc, <- (app_assoc e1).
      apply cumulative_app; [exact (chunk_stable _ _ Hmap)|exact S4].
  - intros c e4 [_ []].
Qed.

Lemma bind_stops {A B} (m : M A) (k : A -> M B) st st' :
  (forall c, m st = (Exited c, st') -> bind m k st = (Exited c, st')) /\
  (forall e, m st = (Raised e, st') -> bind m k st = (Raised e, st')).
Proof. split; intros x H; unfold bind; now rewrite H. Qed.

Lemma ends_at {A} (m : M A) (Q : outcome A -> list event -> Prop) :
  (forall st, exists o evs, m st = (o, emitted st evs) /\ Q o evs) -> ends m Q.
Proof.
  intros H st. destruct (H st) as (o & evs & -> & HQ). now exists evs.
Qed.

Lemma script_ends W : ends (script W) (run_outcome W).
Proof.
  unfold script, run_outcome, get_auth_token.
  destruct (environ W !! "AUTH_TOKEN") as [token|].
  - eapply ends_bind_returns with (Q1 := fun a evs => a = token /\ evs = []);
      [now apply returns_ret|]. intros ? ? [-> ->].
    eapply ends_bind_returns with (Q1 := fun _ evs => evs = []);
      [now apply returns_history|]. intros script_start ? ->.
    unfold check_arguments.
    destruct (negb (length (argv W) =? 2)%nat).
    + apply ends_at. intros st. eexists _, _. split; [|split; reflexivity].
      apply (proj1 (bind_stops _ _ _ _)).
      rewrite (bind_returned _ _ _ _ _ (ci_print_spec _ _ _ _)).
      rewrite (bind_returned _ _ _ _ _ (for_each_ci_print _ _ _)).
      rewrite emitted_emitted. reflexivity.
    + eapply ends_bind_returns with (Q1 := fun _ evs => evs = []);
        [now apply returns_ret|]. intros ? ? ->.
      unfold load_config.
      destruct (open_config W (nth 1 (argv W) "")) as [e| | |config].
      * apply ends_at. intros st. eexists _, _. split; [|split; reflexivity].
        apply (proj1 (bind_stops _ _ _ _)).
        rewrite (bind_returned _ _ _ _ _ (ci_print_spec _ _ _ _)).
        reflexivity.
      * apply ends_at. intros st. exists (Raised UnicodeDecodeError), [].
        rewrite emitted_nil. split; [|split; reflexivity].
        now apply (proj2 (bind_stops _ _ _ _)).
      * apply ends_at. intros st. exists (Raised YAMLError), [].
        rewrite emitted_nil. split; [|split; reflexivity].
        now apply (proj2 (bind_stops _ _ _ _)).
      * eapply ends_bind_returns with (Q1 := fun a evs => a = config /\ evs = []);
          [now apply returns_ret|]. intros ? ? [-> ->].
        cbn [app]. apply captured_run_ends.
  - apply ends_at. intros st. eexists _, _. split; [|split; reflexivity].
    apply (proj1 (bind_stops _ _ _ _)).
    rewrite (bind_returned _ _ _ _ _ (ci_print_spec _ _ _ _)).
    reflexivity.
Qed.

Lemma run_ends W fs0 :
  run_outcome W (fst (run W fs0)) (trace (snd (run W fs0))).
Proof.
  destruct (script_ends W (mkState [] fs0)) as (evs & T & H).
  unfold run. cbn [trace app] in T. now rewrite T.
Qed.

(** ** Runs of the script *)


Lemma screenshot_files_stdout l :
  forallb is_stdout l = true -> screenshot_files l = [].
Proof.
  intros H. apply screenshot_files_none, Forall_forall. intros ev Hin.
  apply list_elem_of_In in Hin.
  apply (proj1 (forallb_forall _ _) H) in Hin. now destruct ev.
Qed.

(** X16: a run that returns has passed the three start-up checks, and the
    screenshots it has requested are, in order, the topology map and then
    those of the index that the configuration and the lookups call for. *)
Theorem complete_run_screenshots W fs0 :
  fst (run W fs0) = Returned tt ->
  exists token config,
    environ W !! "AUTH_TOKEN" = Some token /\
    length (argv W) = 2%nat /\
    open_config W (nth 1 (argv W) "") = Loaded config /\
    screenshot_files (trace (snd (run W fs0))) = run_screenshots W config.
Proof.
  intros Hret. pose proof (run_ends W fs0) as H. rewrite Hret in H.
  unfold run_outcome in H.
  destruct (environ W !! "AUTH_TOKEN") as [token|]; [|now destruct H].
  destruct (length (argv W) =? 2)%nat eqn:Hargs; cbn [negb] in H;
    [|now destruct H].
  apply Nat.eqb_eq in Hargs. cbv zeta in H.
  destruct (open_config W (nth 1 (argv W) "")) as [e| | |config];
    [now destruct H..|].
  exists token, config. repeat split; [exact Hargs|].
  destruct H as (loaded & pages & closing & -> & _ & Hfiles & printed & -> & Hp).
  rewrite app_comm_cons, !screenshot_files_app. cbn [app].
  rewrite Hfiles. change (DriverClose :: printed) with ([DriverClose] ++ printed).
  rewrite screenshot_files_app, (screenshot_files_stdout _ Hp).
  cbn. now rewrite app_nil_r.
Qed.

Lemma count_events_map_red_line p l :
  p = is_close \/ p = is_page_load ->
  count_events p (map red_line l) = O.
Proof.
  intros Hp. apply count_events_none, Forall_forall. intros ev Hin.
  apply list_elem_of_In, in_map_iff in Hin as (x & <- & _).
  now destruct Hp as [-> | ->].
Qed.

Lemma stable_never_closes evs : stable evs -> count_events is_close evs = O.
Proof.
  intros (C & _ & _). apply count_events_none, Forall_forall. intros ev Hin.
  apply list_elem_of_In in Hin.
  apply (proj1 (forallb_forall _ _) C) in Hin. now destruct ev.
Qed.

(** X17: the browser is closed at most once, and only when the capture loop is
    through: a run either never closes it, and then has not returned, or
    closes it once and does nothing but print from there on. *)
Theorem browser_is_closed_after_capture W fs0 :
  let r := run W fs0 in
  (count_events is_close (trace (snd r)) = O /\ fst r <> Returned tt) \/
  (exists before printed,
     trace (snd r) = before ++ DriverClose :: printed /\
     count_events is_close before = O /\
     forallb is_stdout printed = true).
Proof.
  cbv zeta. pose proof (run_ends W fs0) as H. unfold run_outcome in H.
  set (o := fst (run W fs0)) in *. set (tr := trace (snd (run W fs0))) in *.
  assert (Hexit : forall text l,
            o = Exited 1 /\ tr = red_line text :: map red_line l ->
            count_events is_close tr = O /\ o <> Returned tt).
  { intros text l [-> ->]. split; [|discriminate].
    change (red_line text :: map red_line l) with (map red_line (text :: l)).
    apply count_events_map_red_line. now left. }
  destruct (environ W !! "AUTH_TOKEN") as [token|];
    [|left; exact (Hexit _ [] H)].
  destruct (negb (length (argv W) =? 2)%nat); [left; exact (Hexit _ _ H)|].
  cbv zeta in H.
  destruct (open_config W (nth 1 (argv W) "")) as [e| | |config].
  - left. exact (Hexit _ [] H).
  - left. destruct H as [-> ->]. split; [reflexivity|discriminate].
  - left. destruct H as [-> ->]. split; [reflexivity|discriminate].
  - destruct H as (loaded & pages & closing & -> & Hstable & H).
    assert (Hbefore : count_events is_close
                        (Stdout loaded :: browser_setup token ++ pages) = O).
    { rewrite app_comm_cons, count_events_app, (stable_never_closes _ Hstable).
      reflexivity. }
    assert (Hclosed : forall printed,
              closing = DriverClose :: printed ->
              forallb is_stdout printed = true ->
              exists before printed0,
                Stdout loaded :: browser_setup token ++ pages ++ closing =
                  before ++ DriverClose :: printed0 /\
                count_events is_close before = O /\
                forallb is_stdout printed0 = true).
    { intros printed -> Hp.
      exists (Stdout loaded :: browser_setup token ++ pages), printed.
      split; [|split; assumption].
      now rewrite app_comm_cons, app_assoc. }
    destruct o as [[]|e|c].
    + right. destruct H as (_ & printed & Hc & Hp). exact (Hclosed _ Hc Hp).
    + destruct H as [[_ ->]|(_ & _ & printed & Hc & Hp)].
      * left. rewrite app_nil_r. split; [exact Hbefore|discriminate].
      * right. exact (Hclosed _ Hc Hp).
    + destruct H.
Qed.

(** X18: no page is loaded before the token of AUTH_TOKEN has been put into
    the headers of the driver: every page load of a run comes after that
    call. *)
Theorem pages_load_with_token W fs0 i uri :
  trace (snd (run W fs0)) !! i = Some (DriverGet uri) ->
  exists token j,
    environ W !! "AUTH_TOKEN" = Some token /\
    (j < i)%nat /\
    trace (snd (run W fs0)) !! j = Some (DriverHeaderOverrides token).
Proof.
  pose proof (run_ends W fs0) as H. unfold run_outcome in H.
  set (o := fst (run W fs0)) in *. set (tr := trace (snd (run W fs0))) in *.
  intros Hget.
  assert (Hexit : forall text l,
            o = Exited 1 /\ tr = red_line text :: map red_line l -> False).
  { intros text l [Ho Htr]. rewrite Htr in Hget.
    change (red_line text :: map red_line l) with (map red_line (text :: l))
      in Hget.
    apply list_elem_of_lookup_2, list_elem_of_In, in_map_iff in Hget
      as (x & Hx & _). discriminate. }
  destruct (environ W !! "AUTH_TOKEN") as [token|];
    [|now destruct (Hexit _ [] H)].
  destruct (negb (length (argv W) =? 2)%nat); [now destruct (Hexit _ _ H)|].
  cbv zeta in H.
  destruct (open_config W (nth 1 (argv W) "")) as [e| | |config].
  - now destruct (Hexit _ [] H).
  - destruct H as [Ho Htr]. rewrite Htr in Hget. discriminate.
  - destruct H as [Ho Htr]. rewrite Htr in Hget. discriminate.
  - destruct H as (loaded & pages & closing & Htr & Hrest).
    exists token, 3%nat. split; [reflexivity|]. rewrite Htr in Hget |- *.
    split; [|reflexivity].
    destruct i as [|[|[|[|i]]]]; try discriminate. lia.
Qed.

(** X19: the script exits only with code 1 and only for one of the three
    fatal failures: no token, an argument count other than one, or a
    configuration file that cannot be opened. *)
Theorem run_exits_only_as_designed W fs0 code :
  fst (run W fs0) = Exited code ->
  code = 1 /\
  (environ W !! "AUTH_TOKEN" = None \/
   length (argv W) <> 2%nat \/
   exists e, open_config W (nth 1 (argv W) "") = LoadIOError e).
Proof.
  intros Hexit. pose proof (run_ends W fs0) as H. unfold run_outcome in H.
  rewrite Hexit in H.
  destruct (environ W !! "AUTH_TOKEN") as [token|].
  - destruct (length (argv W) =? 2)%nat eqn:Hargs; cbn [negb] in H.
    + cbv zeta in H.
      destruct (open_config W (nth 1 (argv W) "")) as [e| | |config].
      * destruct H as [[= ->] _]. split; [reflexivity|]. right. right.
        now exists e.
      * now destruct H.
      * now destruct H.
      * now destruct H as (loaded & pages & closing & _ & _ & []).
    + apply Nat.eqb_neq in Hargs. destruct H as [[= ->] _]. auto.
  - destruct H as [[= ->] _]. auto.
Qed.

(** ** More on the filename sanitizer *)

(** Sanitizing a concatenation is concatenating the sanitized parts. *)
Lemma sanitize_filename_app (a b : string) :
  sanitize_filename (a +:+ b) = sanitize_filename a +:+ sanitize_filename b.
Proof.
  induction a as [|c a IH]; [reflexivity|].
  rewrite string_app_cons, !sanitize_filename_cons, IH.
  now destruct (allow_listed c).
Qed.

Lemma sanitize_filename_length (s : string) :
  (String.length (sanitize_filename s) <= String.length s)%nat.
Proof.
  induction s as [|c s IH]; [reflexivity|].
  rewrite sanitize_filename_cons. destruct (allow_listed c); cbn; lia.
Qed.

(** X20: the names the sanitizer leaves as they are are exactly those made of
    allow-listed characters only. *)
Theorem sanitize_filename_fixed_points (s : string) :
  sanitize_filename s = s <->
  forallb allow_listed (list_ascii_of_string s) = true.
Proof.
  induction s as [|c s IH]; [easy|].
  rewrite sanitize_filename_cons. cbn [list_ascii_of_string forallb].
  destruct (allow_listed c); cbn [andb].
  - rewrite <- IH. split; [now intros [= ->]|now intros ->].
  - split; [|discriminate]. intros H.
    pose proof (sanitize_filename_length s) as Hlen. rewrite H in Hlen.
    cbn in Hlen. lia.
Qed.

Lemma sanitize_filename_chars c s :
  char_in c (sanitize_filename s) = true -> allow_listed c = true.
Proof.
  induction s as [|x s IH]; [discriminate|].
  rewrite sanitize_filename_cons. destruct (allow_listed x) eqn:Hx; [|exact IH].
  cbn [char_in]. destruct (Ascii.eqb_spec c x) as [->|_]; [now intros _|exact IH].
Qed.

Lemma split_on_piece sep (l rest : string) :
  char_in sep l = false ->
  split_on sep (l +:+ String sep rest) = l :: split_on sep rest.
Proof.
  induction l as [|x l IH]; intros Hl.
  - cbn [split_on String.append]. change ("" +:+ String sep rest)
      with (String sep rest). cbn [split_on]. now rewrite Ascii.eqb_refl.
  - cbn [char_in] in Hl. rewrite string_app_cons. cbn [split_on].
    destruct (Ascii.eqb sep x) eqn:Hx; [discriminate|].
    rewrite Ascii.eqb_sym, Hx. now rewrite IH.
Qed.

Lemma split_on_whole sep (l : string) :
  char_in sep l = false -> split_on sep l = [l].
Proof.
  induction l as [|x l IH]; intros Hl; [reflexivity|].
  cbn [char_in] in Hl. cbn [split_on].
  destruct (Ascii.eqb sep x) eqn:Hx; [discriminate|].
  rewrite Ascii.eqb_sym, Hx. now rewrite IH.
Qed.

Lemma sanitize_filename_no_slash s : char_in "/" (sanitize_filename s) = false.
Proof.
  destruct (char_in "/" (sanitize_filename s)) eqn:H; [|reflexivity].
  apply sanitize_filename_chars in H. discriminate.
Qed.

(** The steps of the path of a site directory: the sanitized name is one
    step, whatever the name holds, or none when it is empty or a single
    dot. *)
Lemma site_directory_components (site_name : string) :
  let site_fs_name := sanitize_filename site_name in
  components ("screenshots/" +:+ site_fs_name +:+ "/") =
  "screenshots" ::
    (if String.eqb site_fs_name "" || String.eqb site_fs_name "."
     then [] else [site_fs_name]).
Proof.
  cbv zeta. unfold components.
  change ("screenshots/" +:+ sanitize_filename site_name +:+ "/")
    with ("screenshots" +:+
          String "/" (sanitize_filename site_name +:+ String "/" "")).
  rewrite split_on_piece by reflexivity.
  rewrite split_on_piece by apply sanitize_filename_no_slash.
  cbn [split_on List.filter]. cbn [String.eqb negb andb].
  change (String.eqb "screenshots" "") with false.
  change (String.eqb "screenshots" ".") with false. cbn [negb andb].
  destruct (String.eqb (sanitize_filename site_name) "");
    [reflexivity|].
  now destruct (String.eqb (sanitize_filename site_name) ".").
Qed.

(** ** More on the CI detection *)

(** X22: build information is read only for a complete pair of variables:
    without both Travis variables and without both BUILD_ID and BUILD_URL,
    no CI system is detected and nothing of the commit or the build is
    kept, whatever else is set; and conversely. *)
Theorem detect_ci_needs_a_complete_pair (env : gmap string string) :
  CI_SYSTEM (detect_ci env) = None <->
  (env !! "TRAVIS_BUILD_NUMBER" = None \/ env !! "TRAVIS_BUILD_WEB_URL" = None) /\
  (env !! "BUILD_ID" = None \/ env !! "BUILD_URL" = None).
Proof.
  unfold detect_ci, in_environ.
  destruct (env !! "TRAVIS_BUILD_NUMBER"), (env !! "TRAVIS_BUILD_WEB_URL"),
           (env !! "BUILD_ID"), (env !! "BUILD_URL"); cbn; intuition congruence.
Qed.

(** X23: a Jenkins-like environment is recognized by BUILD_ID and BUILD_URL,
    but the job id is read from BUILD_NUMBER: when that one is missing, the
    build line of every README shows 'None' as the job id. *)
Theorem jenkins_without_build_number (env : gmap string string) id url :
  (env !! "TRAVIS_BUILD_NUMBER" = None \/ env !! "TRAVIS_BUILD_WEB_URL" = None) ->
  env !! "BUILD_ID" = Some id ->
  env !! "BUILD_URL" = Some url ->
  env !! "BUILD_NUMBER" = None ->
  build_block (detect_ci env) =
  NL +:+ NL +:+ "Jenkins job id: [None](" +:+ url +:+ ")".
Proof.
  intros Htravis Hid Hurl Hnum. unfold detect_ci, in_environ.
  rewrite Hid, Hurl, Hnum.
  destruct Htravis as [-> | ->]; [reflexivity|].
  now destruct (env !! "TRAVIS_BUILD_NUMBER").
Qed.

(** ** Sorting the interfaces *)

Lemma insert_by_name_perm x l : insert_by_name x l ≡ₚ x :: l.
Proof.
  induction l as [|y l IH]; [reflexivity|]. cbn [insert_by_name].
  destruct (String.leb _ _); [reflexivity|]. rewrite IH. apply Permutation_swap.
Qed.

Lemma name_le_total a b : name_le a b \/ name_le b a.
Proof. apply String.leb_total. Qed.

Lemma insert_by_name_sorted x l :
  Sorted name_le l -> Sorted name_le (insert_by_name x l).
Proof.
  induction 1 as [|y l Hl IH Hy]; cbn [insert_by_name].
  - repeat constructor.
  - destruct (String.leb (iface_name x) (iface_name y)) eqn:Hxy.
    + repeat constructor; assumption.
    + constructor; [exact IH|].
      assert (Hyx : name_le y x).
      { destruct (name_le_total x y) as [H|H]; [|exact H].
        unfold name_le in H. congruence. }
      destruct l as [|z l]; cbn [insert_by_name].
      * now constructor.
      * destruct (String.leb (iface_name x) (iface_name z));
          constructor; [exact Hyx|]. now inversion Hy.
Qed.

Lemma leb_refl s : String.leb s s = true.
Proof.
  destruct (String.leb_total s s) as [H|H]; exact H.
Qed.

Lemma insert_by_name_filter n x l :
  List.filter (fun i => String.eqb (iface_name i) n) (insert_by_name x l) =
  List.filter (fun i => String.eqb (iface_name i) n) (x :: l).
Proof.
  induction l as [|y l IH]; [reflexivity|]. cbn [insert_by_name].
  destruct (String.leb (iface_name x) (iface_name y)) eqn:Hxy; [reflexivity|].
  cbn [List.filter] in *. rewrite IH.
  destruct (String.eqb_spec (iface_name x) n) as [Hx|_]; [|reflexivity].
  destruct (String.eqb_spec (iface_name y) n) as [Hy|_]; [|reflexivity].
  rewrite Hx, <- Hy, leb_refl in Hxy. discriminate.
Qed.

(** X24: the interfaces are captured in a name-ordered rearrangement of what
    the SDK returned, and interfaces of the same name keep the order they
    came in. *)
Theorem sorted_by_name_sorts (l : list interface) :
  sorted_by_name l ≡ₚ l /\
  Sorted name_le (sorted_by_name l) /\
  forall n,
    List.filter (fun i => String.eqb (iface_name i) n) (sorted_by_name l) =
    List.filter (fun i => String.eqb (iface_name i) n) l.
Proof.
  unfold sorted_by_name. induction l as [|x l (Hp & Hs & Hf)]; cbn [foldr].
  - repeat split; constructor.
  - split; [|split].
    + rewrite insert_by_name_perm. now constructor.
    + now apply insert_by_name_sorted.
    + intros n. rewrite insert_by_name_filter. cbn [List.filter].
      now rewrite Hf.
Qed.

(** ** READMEs and screenshots *)

Lemma split_on_break sep (a b : string) :
  split_on sep (a +:+ String sep b) = split_on sep a ++ split_on sep b.
Proof.
  induction a as [|x a IH].
  - change ("" +:+ String sep b) with (String sep b). cbn [split_on].
    now rewrite Ascii.eqb_refl.
  - rewrite string_app_cons. cbn [split_on]. rewrite IH.
    destruct (Ascii.eqb x sep); [reflexivity|].
    destruct (split_on sep a) as [|w ws] eqn:Hs; [|reflexivity].
    destruct a as [|y a]; [discriminate|]. cbn [split_on] in Hs.
    destruct (Ascii.eqb y sep); [discriminate|].
    now destruct (split_on sep a).
Qed.

Lemma lines_break (a b : string) : lines (a +:+ NL +:+ b) = lines a ++ lines b.
Proof. apply split_on_break. Qed.

Lemma in_lines_unlines l ls : In l ls -> single_line l = true ->
  In l (lines (unlines ls)).
Proof.
  induction ls as [|x ls IH]; [easy|]. intros [->|Hin] Hl.
  - cbn [unlines foldr]. fold (unlines ls). rewrite lines_break.
    apply in_or_app. left. unfold lines. rewrite split_on_whole; [now left|].
    unfold single_line in Hl. now destruct (char_in LF l).
  - cbn [unlines foldr]. fold (unlines ls). rewrite lines_break.
    apply in_or_app. right. now apply IH.
Qed.

Lemma in_lines_app_r l (a b : string) :
  In l (lines b) -> In l (lines (a +:+ NL +:+ b)).
Proof. intros H. rewrite lines_break. apply in_or_app. now right. Qed.

(** X25: every page that the capture loop saves for an element is embedded in
    the README of the element, under the name it was saved with. *)
Theorem element_readme_embeds_every_page ci element page :
  In page ELEMENT_PAGES ->
  exists alt, In (img alt page) (lines (element_readme ci element)).
Proof.
  intros Hpage. unfold element_readme.
  cbn [unlines foldr]. fold (unlines []).
  set (title := "## Element: " +:+ _).
  assert (H : forall l, In l [
      img "Interfaces Summary" "interfaces_summary.png";
      img "Basic Info" "basic_info.png";
      img "Device Toolkit" "device_toolkit.png";
      img "BGP Peers" "bgp_peers.png";
      img "BGP Route Maps" "bgp_route_maps.png";
      img "BGP Peers" "bgp_aspath_acl.png";
      img "BGP Peers" "bgp_prefix_lists.png";
      img "BGP Peers" "bgp_ip_community_lists.png";
      img "Static Routes" "static_routes.png";
      img "SNMP" "snmp.png";
      img "SYSLOG" "syslog.png";
      img "NTP" "ntp.png"] ->
    In l (lines (title +:+ NL +:+ "" +:+ NL +:+ unlines [
      "[Back To Site](../README.md)"; ""; "### Interfaces"; "<ul>"; "<li>";
      anchor "interfaces/README.md" "Interfaces Detail"; "</li>"; "</ul>";
      img "Interfaces Summary" "interfaces_summary.png"; "";
      "### Basic Info"; img "Basic Info" "basic_info.png"; "";
      "### Device Toolkit"; img "Device Toolkit" "device_toolkit.png"; "";
      "### Routing/BGP Peers"; img "BGP Peers" "bgp_peers.png"; "";
      "### Routing/BGP Route Maps"; img "BGP Route Maps" "bgp_route_maps.png"; "";
      "### Routing/BGP AS-Path Access Lists"; img "BGP Peers" "bgp_aspath_acl.png"; "";
      "### Routing/BGP Prefix Lists"; img "BGP Peers" "bgp_prefix_lists.png"; "";
      "### Routing/BGP Peers"; img "BGP Peers" "bgp_ip_community_lists.png"; "";
      "### Routing/Static"; img "Static Routes" "static_routes.png"; "";
      "### SNMP"; img "SNMP" "snmp.png"; "";
      "### SYSLOG"; img "SYSLOG" "syslog.png"; "";
      "### NTP"; img "NTP" "ntp.png"; ""]))).
  { intros l Hl. apply in_lines_app_r.
    change ("" +:+ NL +:+ ?x) with (String.append "" (NL +:+ x)).
    apply (in_lines_app_r l ""). vm_compute in Hl |- *. tauto. }
  unfold ELEMENT_PAGES in Hpage. cbn [In] in Hpage.
  repeat (destruct Hpage as [<-|Hpage];
          [eexists; apply H; cbn [In]; tauto|]).
  destruct Hpage.
Qed.

Lemma fold_entries_unlines (a : string) (ls : list string)
    (l : list md_interface) :
  fold_left (fun interface_readme_md interface =>
               interface_readme_md +:+ interface_entry interface)
            l (a +:+ NL +:+ unlines ls) =
  a +:+ NL +:+
  unlines (ls ++ concat (map (fun i => ["### " +:+ mi_name i;
                                        img "1" (mi_fs_name i +:+ ".png");
                                        "                "]) l)).
Proof.
  revert ls. induction l as [|i l IH]; intros ls; cbn [fold_left map concat].
  - now rewrite app_nil_r.
  - rewrite !string_app_assoc.
    change (interface_entry i)
      with (unlines ["### " +:+ mi_name i; img "1" (mi_fs_name i +:+ ".png");
                     "                "]).
    rewrite <- unlines_app, IH, <- app_assoc. reflexivity.
Qed.

(** X26: every interface of an element of the index has its image embedded
    in the interfaces README of the element, under the name the capture
    loop saves it with (fs names hold no line break). *)
Theorem interface_readme_embeds_every_interface ci element interface :
  In interface (me_interfaces element) ->
  single_line (mi_fs_name interface) = true ->
  In (img "1" (mi_fs_name interface +:+ ".png"))
     (lines (interface_readme ci element)).
Proof.
  intros Hin Hfs. unfold interface_readme, interface_readme_header.
  match goal with
  | |- context [unlines [?h; ?a; ?b; ?c]] =>
      change (unlines [h; a; b; c]) with (h +:+ NL +:+ unlines [a; b; c])
  end.
  rewrite fold_entries_unlines. apply in_lines_app_r, in_lines_unlines.
  - apply in_or_app. right. apply in_concat.
    eexists. split; [apply in_map, Hin|]. cbn [In]. tauto.
  - unfold img. rewrite !single_line_app, Hfs. reflexivity.
Qed.

(** ** Directories under monotone changes *)

Lemma is_dir_mono fs0 fs1 p :
  dirs fs0 ⊆ dirs fs1 -> is_dir fs0 p = true -> is_dir fs1 p = true.
Proof.
  unfold is_dir. intros Hd H. apply orb_true_iff in H as [H|H];
    apply orb_true_iff; [now left|right].
  apply bool_decide_eq_true in H. apply bool_decide_eq_true. now apply Hd.
Qed.

Lemma walk_dirs_mono name name' cur cs fs0 fs1 p :
  dirs fs0 ⊆ dirs fs1 ->
  walk_dirs name cur cs fs0 = inr p -> walk_dirs name' cur cs fs1 = inr p.
Proof.
  intros Hd. revert cur. induction cs as [|c cs IH]; intros cur;
    cbn [walk_dirs]; [easy|].
  destruct (is_dir fs0 (enter cur c)) eqn:D.
  - rewrite (is_dir_mono _ _ _ Hd D). apply IH.
  - now destruct (is_file fs0 _).
Qed.

Lemma is_directory_mono fs0 fs1 name :
  dirs fs0 ⊆ dirs fs1 ->
  is_directory fs0 name = true -> is_directory fs1 name = true.
Proof.
  unfold is_directory. intros Hd.
  destruct (walk_dirs name [] _ fs0) as [|p] eqn:H; [discriminate|].
  now rewrite (walk_dirs_mono _ name _ _ _ _ _ Hd H).
Qed.

Lemma mkdir_from_walk name name' cur cs fs0 fs1 :
  mkdir_from name cur cs fs0 = inr fs1 ->
  exists p, walk_dirs name' cur cs fs1 = inr p.
Proof.
  revert cur fs0. induction cs as [|c cs IH]; intros cur fs0;
    cbn [mkdir_from walk_dirs].
  - intros _. now exists cur.
  - destruct (is_dir fs0 (enter cur c)) eqn:D.
    + intros H. destruct (mkdir_from_grows _ _ _ _ _ H) as [_ Hd].
      rewrite (is_dir_mono _ _ _ Hd D). exact (IH _ _ H).
    + destruct (is_file fs0 (enter cur c)); [discriminate|].
      intros H. destruct (mkdir_from_grows _ _ _ _ _ H) as [_ Hd].
      cbn [dirs] in Hd.
      assert (D1 : is_dir fs1 (enter cur c) = true).
      { unfold is_dir. apply orb_true_iff. right. apply bool_decide_eq_true.
        apply Hd, elem_of_union. left. now apply elem_of_singleton. }
      rewrite D1. exact (IH _ _ H).
Qed.

Lemma mkdir_parents_is_directory name fs0 fs1 :
  mkdir_parents name fs0 = inr fs1 -> is_directory fs1 name = true.
Proof.
  unfold mkdir_parents, is_directory. intros H.
  destruct (mkdir_from_walk _ name _ _ _ _ H) as [p ->]. reflexivity.
Qed.

Lemma housed_element_mono fs0 fs1 site_directory element :
  dirs fs0 ⊆ dirs fs1 ->
  housed_element fs0 site_directory element ->
  housed_element fs1 site_directory element.
Proof.
  intros Hd [He Hi]. split.
  - exact (is_directory_mono _ _ _ Hd He).
  - intros Hn. exact (is_directory_mono _ _ _ Hd (Hi Hn)).
Qed.

Lemma housed_site_mono fs0 fs1 site :
  dirs fs0 ⊆ dirs fs1 -> housed_site fs0 site -> housed_site fs1 site.
Proof.
  intros Hd [Hs He]. split.
  - exact (is_directory_mono _ _ _ Hd Hs).
  - eapply Forall_impl; [exact He|]. intros e. now apply housed_element_mono.
Qed.

Lemma walk_dirs_steps name cur cs fs0 p :
  walk_dirs name cur cs fs0 = inr p -> p = fold_left enter cs cur.
Proof.
  revert cur. induction cs as [|c cs IH]; intros cur; cbn [walk_dirs fold_left].
  - now intros [= <-].
  - destruct (is_dir fs0 (enter cur c)); [apply IH|].
    now destruct (is_file fs0 (enter cur c)).
Qed.

(** X21: the directory that [mkdir] makes for a site is the one that bears
    the sanitized name of the site directly in screenshots/, whatever the
    name holds, with two exceptions: for a name that sanitizes to nothing
    or to a single dot it is screenshots/ itself, and for a name that
    sanitizes to two dots it is the working directory. *)
Theorem site_directory_resolves (site_name : string) fs0 fs1 :
  let site_fs_name := sanitize_filename site_name in
  let site_directory := "screenshots/" +:+ site_fs_name +:+ "/" in
  mkdir_parents site_directory fs0 = inr fs1 ->
  walk_dirs site_directory [] (components site_directory) fs1 =
  inr (if String.eqb site_fs_name "" || String.eqb site_fs_name "."
       then ["screenshots"]
       else if String.eqb site_fs_name ".." then []
       else ["screenshots"; site_fs_name]).
Proof.
  cbv zeta. intros Hmk. unfold mkdir_parents in Hmk.
  destruct (mkdir_from_walk _ ("screenshots/" +:+ sanitize_filename site_name
                               +:+ "/") _ _ _ _ Hmk) as [p Hp].
  rewrite Hp. f_equal. apply walk_dirs_steps in Hp. subst p.
  rewrite (site_directory_components site_name). cbv zeta.
  destruct (String.eqb _ "" || String.eqb _ "."); [reflexivity|].
  cbn [fold_left]. unfold enter at 2. cbn [String.eqb Ascii.eqb Bool.eqb app].
  unfold enter.
  destruct (String.eqb (sanitize_filename site_name) ".."); reflexivity.
Qed.

(** ** Rules for the file system *)

Lemma triple_ret {A} (P : filesystem -> Prop) (a : A)
    (Q : A -> filesystem -> Prop) E :
  (forall fs0, P fs0 -> Q a fs0) -> triple P (ret a) Q E.
Proof. intros H st HP. cbn. now apply H. Qed.

Lemma triple_bind {A B} (P : filesystem -> Prop) (m : M A) (k : A -> M B)
    (Q1 : A -> filesystem -> Prop) (Q2 : B -> filesystem -> Prop) E :
  triple P m Q1 E ->
  (forall a, triple (Q1 a) (k a) Q2 E) ->
  triple P (bind m k) Q2 E.
Proof.
  intros Hm Hk st HP. specialize (Hm st HP). unfold bind.
  destruct (m st) as [[a|e|c] st1]; cbn [fst snd] in *; [|exact Hm|exact I].
  exact (Hk a st1 Hm).
Qed.

Lemma triple_post {A} (P P' : filesystem -> Prop) (m : M A)
    (Q Q' : A -> filesystem -> Prop) (E E' : exn -> Prop) :
  triple P m Q E ->
  (forall fs0, P' fs0 -> P fs0) ->
  (forall a fs0, Q a fs0 -> Q' a fs0) ->
  (forall e, E e -> E' e) ->
  triple P' m Q' E'.
Proof.
  intros Hm HP HQ HE st H. specialize (Hm st (HP _ H)).
  destruct (fst (m st)); auto.
Qed.

(** A fragment that always returns and leaves the file system alone. *)
Lemma triple_returns {A} (P : filesystem -> Prop) (m : M A)
    (R : A -> list event -> Prop) E :
  returns m R -> triple P m (fun _ => P) E.
Proof.
  intros Hm st HP. destruct (Hm st) as (a & evs & -> & _). exact HP.
Qed.

Lemma triple_on_fs (P : filesystem -> Prop) op
    (Q : unit -> filesystem -> Prop) (E : exn -> Prop) :
  (forall fs0, P fs0 ->
     match op fs0 with inr fs1 => Q tt fs1 | inl e => E e end) ->
  triple P (on_fs op) Q E.
Proof.
  intros H st HP. specialize (H _ HP). unfold on_fs.
  destruct (op (fs st)); exact H.
Qed.

Lemma triple_for_fold {A S} (l : list A) (body : S -> A -> M S)
    (I : S -> filesystem -> Prop) E acc :
  (forall acc x, In x l -> triple (I acc) (body acc x) I E) ->
  triple (I acc) (for_fold l acc body) I E.
Proof.
  revert acc. induction l as [|x l IH]; intros acc Hb; cbn [for_fold].
  - now apply triple_ret.
  - eapply triple_bind; [apply Hb; now left|]. intros acc'. apply IH.
    intros acc0 y Hy. apply Hb. now right.
Qed.

(** What is known of the returned value in every state may be added. *)
Lemma triple_value {A} (P : filesystem -> Prop) (m : M A)
    (Q : A -> filesystem -> Prop) E (V : A -> Prop) (X : exn -> Prop) :
  (forall st, match fst (m st) with
              | Returned a => V a
              | Raised e => X e
              | Exited _ => True
              end) ->
  triple P m Q E ->
  triple P m (fun a fs0 => Q a fs0 /\ V a) (fun e => E e /\ X e).
Proof.
  intros HV Hm st HP. specialize (Hm st HP). specialize (HV st).
  destruct (fst (m st)); auto.
Qed.

(** ** The directories of the capture loop *)

Ltac quiet_step :=
  eapply triple_bind;
  [ eapply triple_returns;
    first [ apply element_page_chunk
          | (apply screenshot_page_chunk; sleeps_accepted)
          | apply ci_print_chunk
          | apply (fun ev => returns_emit ev (fun _ _ => True) I) ]
  | intros ? ].

Lemma capture_interfaces_houses W site_id element_id element_directory
    (P : filesystem -> Prop) :
  (forall fs0 fs1, dirs fs0 ⊆ dirs fs1 -> P fs0 -> P fs1) ->
  triple P (capture_interfaces W site_id element_id element_directory)
    (fun interfaces fs1 =>
       P fs1 /\
       (interfaces <> [] ->
        is_directory fs1 (element_directory +:+ "interfaces" +:+ "/") = true))
    (fun _ => True).
Proof.
  intros HP. unfold capture_interfaces. destruct (1 <=? _)%nat.
  - eapply triple_bind with
      (Q1 := fun _ fs1 =>
         P fs1 /\
         is_directory fs1 (element_directory +:+ "interfaces" +:+ "/") = true).
    + apply triple_on_fs. intros fs0 H0.
      destruct (mkdir_parents _ fs0) as [e|fs1] eqn:Hm; [exact I|].
      split.
      * unfold mkdir_parents in Hm.
        exact (HP _ _ (proj2 (mkdir_from_grows _ _ _ _ _ Hm)) H0).
      * exact (mkdir_parents_is_directory _ _ _ Hm).
    + intros ?. quiet_step.
      eapply triple_bind; [eapply triple_returns, capture_interface_loop|].
      intros interfaces. quiet_step.
      apply triple_ret. intros fs0 [H1 H2]. split; [exact H1|]. now intros _.
  - apply triple_ret. intros fs0 H0. split; [exact H0|]. now intros [].
Qed.

Lemma capture_element_houses W site_id site_directory elements element_name
    (P : filesystem -> Prop) :
  (forall fs0 fs1, dirs fs0 ⊆ dirs fs1 -> P fs0 -> P fs1) ->
  triple (fun fs0 => P fs0 /\ Forall (housed_element fs0 site_directory) elements)
    (capture_element W site_id site_directory elements element_name)
    (fun elements' fs1 =>
       P fs1 /\ Forall (housed_element fs1 site_directory) elements')
    (fun _ => True).
Proof.
  intros HP. unfold capture_element, done_.
  destruct (elements_n2id W !! element_name) as [element_id|].
  - set (element_directory :=
           site_directory +:+ sanitize_filename element_name +:+ "/").
    eapply triple_bind with
      (Q1 := fun _ fs1 =>
         (P fs1 /\ Forall (housed_element fs1 site_directory) elements) /\
         is_directory fs1 element_directory = true).
    + apply triple_on_fs. intros fs0 [H0 H1].
      destruct (mkdir_parents _ fs0) as [e|fs1] eqn:Hm; [exact I|].
      pose proof (proj2 (mkdir_from_grows _ _ _ _ _ Hm)) as Hd.
      repeat split.
      * exact (HP _ _ Hd H0).
      * eapply Forall_impl; [exact H1|]. intros e.
        now apply housed_element_mono.
      * exact (mkdir_parents_is_directory _ _ _ Hm).
    + intros ?. do 16 quiet_step.
      eapply triple_bind.
      * apply capture_interfaces_houses with
          (P := fun fs1 =>
             (P fs1 /\ Forall (housed_element fs1 site_directory) elements) /\
             is_directory fs1 element_directory = true).
        intros fs0 fs1 Hd [[H0 H1] H2]. repeat split.
        -- exact (HP _ _ Hd H0).
        -- eapply Forall_impl; [exact H1|]. intros e.
           now apply housed_element_mono.
        -- exact (is_directory_mono _ _ _ Hd H2).
      * intros interfaces. apply triple_ret.
        intros fs0 [[[H0 H1] H2] H3]. split; [exact H0|].
        apply Forall_app. split; [exact H1|].
        constructor; [|constructor]. split; [exact H2|exact H3].
  - quiet_step. apply triple_ret. now intros fs0 H.
Qed.

Lemma capture_site_houses W markdown_index item :
  triple (fun fs0 => Forall (housed_site fs0) markdown_index)
    (capture_site W markdown_index item)
    (fun markdown_index' fs1 => Forall (housed_site fs1) markdown_index')
    (fun _ => True).
Proof.
  unfold capture_site, done_.
  destruct (sites_n2id W !! fst item) as [site_id|].
  - set (site_directory :=
           "screenshots/" +:+ sanitize_filename (fst item) +:+ "/").
    set (P := fun fs1 =>
           Forall (housed_site fs1) markdown_index /\
           is_directory fs1 site_directory = true).
    assert (HP : forall fs0 fs1, dirs fs0 ⊆ dirs fs1 -> P fs0 -> P fs1).
    { intros fs0 fs1 Hd [H0 H1]. split.
      - eapply Forall_impl; [exact H0|]. intros s. now apply housed_site_mono.
      - exact (is_directory_mono _ _ _ Hd H1). }
    eapply triple_bind with (Q1 := fun _ => P).
    + apply triple_on_fs. intros fs0 H0.
      destruct (mkdir_parents _ fs0) as [e|fs1] eqn:Hm; [exact I|].
      pose proof (proj2 (mkdir_from_grows _ _ _ _ _ Hm)) as Hd. split.
      * eapply Forall_impl; [exact H0|]. intros s. now apply housed_site_mono.
      * exact (mkdir_parents_is_directory _ _ _ Hm).
    + intros ?. do 3 quiet_step.
      eapply triple_bind.
      * eapply triple_post.
        -- apply (triple_for_fold (snd item)
                    (capture_element W site_id site_directory)
                    (fun elements fs1 =>
                       P fs1 /\
                       Forall (housed_element fs1 site_directory) elements)).
           intros acc x _. now apply capture_element_houses.
        -- intros fs0 H0. split; [exact H0|constructor].
        -- intros els fs0 H0. exact H0.
        -- auto.
      * intros elements. apply triple_ret. intros fs0 [[H0 H1] H2].
        apply Forall_app. split; [exact H0|].
        constructor; [|constructor]. split; [exact H1|exact H2].
  - quiet_step. apply triple_ret. now intros fs0 H.
Qed.

Lemma capture_sites_houses W sites_dict markdown_index :
  triple (fun fs0 => Forall (housed_site fs0) markdown_index)
    (capture_sites W sites_dict markdown_index)
    (fun markdown_index' fs1 => Forall (housed_site fs1) markdown_index')
    (fun _ => True).
Proof.
  unfold capture_sites.
  apply (triple_for_fold sites_dict (capture_site W)
           (fun markdown_index' fs1 => Forall (housed_site fs1) markdown_index')).
  intros acc x _. apply capture_site_houses.
Qed.

(** X27: when the capture loop returns, the directories the emitter is to
    write into are there: that of every recorded site, that of every
    recorded element, and the interfaces directory of every recorded
    element that has an interface. *)
Theorem capture_creates_directories W sites_dict markdown_index st
    markdown_index' st' :
  capture_sites W sites_dict markdown_index st = (Returned markdown_index', st') ->
  Forall (housed_site (fs st)) markdown_index ->
  Forall (housed_site (fs st')) markdown_index'.
Proof.
  intros E H. pose proof (capture_sites_houses W sites_dict markdown_index st H) as T.
  now rewrite E in T.
Qed.

(** ** The emitter in the directories of the capture loop *)

Lemma components_slash (a b : string) :
  components (a +:+ String "/" b) = components a ++ components b.
Proof. unfold components. now rewrite split_on_break, List.filter_app. Qed.

Lemma components_directory (d : string) :
  components (d +:+ "/") = components d.
Proof. rewrite components_slash. apply app_nil_r. Qed.

Lemma open_write_in_directory name content fs0 dir leaf :
  components name = components dir ++ [leaf] ->
  is_directory fs0 dir = true ->
  match open_write name content fs0 with
  | inr fs1 => dirs fs1 = dirs fs0
  | inl e => is_a_directory_error e
  end.
Proof.
  unfold is_directory, open_write. intros -> Hd.
  rewrite last_snoc, removelast_last.
  destruct (walk_dirs dir [] _ fs0) as [|p] eqn:Hw; [discriminate|].
  rewrite (walk_dirs_mono dir name _ _ fs0 fs0 p (reflexivity _) Hw).
  destruct (is_dir fs0 _); [exact I|reflexivity].
Qed.

Lemma triple_write_file (P : filesystem -> Prop) name content dir leaf :
  (forall fs0 fs1, dirs fs0 ⊆ dirs fs1 -> P fs0 -> P fs1) ->
  components name = components dir ++ [leaf] ->
  (forall fs0, P fs0 -> is_directory fs0 dir = true) ->
  triple P (write_file name content) (fun _ => P) is_a_directory_error.
Proof.
  intros HP Hc Hd. apply triple_on_fs. intros fs0 H0.
  pose proof (open_write_in_directory name content fs0 dir leaf Hc (Hd _ H0))
    as H.
  destruct (open_write name content fs0) as [e|fs1]; [exact H|].
  apply (HP fs0); [|exact H0]. now rewrite H.
Qed.

Ltac print_step :=
  eapply triple_bind;
  [ eapply triple_returns, ci_print_returns | intros ? ].

Lemma emit_element_in_directories ci site text element
    (P : filesystem -> Prop) :
  (forall fs0 fs1, dirs fs0 ⊆ dirs fs1 -> P fs0 -> P fs1) ->
  (forall fs0, P fs0 ->
     housed_element fs0 ("screenshots/" +:+ ms_fs_name site +:+ "/") element) ->
  me_interfaces element <> [] ->
  triple P (emit_element ci site text element) (fun _ => P)
         is_a_directory_error.
Proof.
  intros HP Hh Hi. unfold emit_element, done_.
  set (d := ("screenshots/" +:+ ms_fs_name site) +:+ "/" +:+ me_fs_name element).
  assert (Hdir : ("screenshots/" +:+ ms_fs_name site +:+ "/") +:+
                 me_fs_name element +:+ "/" = d +:+ "/").
  { unfold d. now rewrite !string_app_assoc. }
  print_step.
  eapply triple_bind.
  - apply (triple_write_file P _ _ ((d +:+ "/") +:+ "interfaces" +:+ "/")
             "README.md" HP).
    + replace ("screenshots/" +:+ ms_fs_name site +:+ "/" +:+
               me_fs_name element +:+ "/interfaces/README.md")
        with (((d +:+ "/") +:+ "interfaces") +:+ "/README.md")
        by (unfold d; now rewrite !string_app_assoc).
      rewrite <- (string_app_assoc (d +:+ "/") "interfaces" "/").
      now rewrite components_slash, components_directory.
    + intros fs0 H0. destruct (Hh _ H0) as [_ H]. rewrite <- Hdir.
      exact (H Hi).
  - intros ?. print_step. print_step.
    eapply triple_bind.
    + apply (triple_write_file P _ _ (d +:+ "/") "README.md" HP).
      * replace ("screenshots/" +:+ ms_fs_name site +:+ "/" +:+
                 me_fs_name element +:+ "/README.md")
          with (d +:+ "/README.md")
          by (unfold d; now rewrite !string_app_assoc).
        now rewrite components_slash, components_directory.
      * intros fs0 H0. destruct (Hh _ H0) as [H _]. now rewrite <- Hdir.
    + intros ?. print_step. now apply triple_ret.
Qed.

Lemma emit_site_in_directories ci site (P : filesystem -> Prop) :
  (forall fs0 fs1, dirs fs0 ⊆ dirs fs1 -> P fs0 -> P fs1) ->
  (forall fs0, P fs0 -> housed_site fs0 site) ->
  with_interfaces site ->
  triple P (emit_site ci site) (fun _ => P) is_a_directory_error.
Proof.
  intros HP Hh Hi. unfold emit_site, done_.
  eapply triple_bind.
  - apply (triple_for_fold (ms_elements site) (emit_element ci site)
             (fun _ => P)).
    intros text element Hin.
    apply emit_element_in_directories; [exact HP| |].
    + intros fs0 H0. destruct (Hh _ H0) as [_ H].
      exact (proj1 (List.Forall_forall _ _) H _ Hin).
    + exact (proj1 (List.Forall_forall _ _) Hi _ Hin).
  - intros text. print_step.
    eapply triple_bind.
    + apply (triple_write_file P _ _ ("screenshots/" +:+ ms_fs_name site +:+ "/")
               "README.md" HP).
      * rewrite <- !(string_app_assoc "screenshots/" (ms_fs_name site)).
        now rewrite components_slash, components_directory.
      * intros fs0 H0. exact (proj1 (Hh _ H0)).
    + intros ?. eapply triple_returns, ci_print_returns.
Qed.

Lemma emit_markdown_in_directories ci markdown_index :
  Forall with_interfaces markdown_index ->
  triple (fun fs0 => Forall (housed_site fs0) markdown_index)
         (emit_markdown ci markdown_index)
         (fun _ fs1 => Forall (housed_site fs1) markdown_index)
         is_a_directory_error.
Proof.
  intros Hi. unfold emit_markdown, for_each.
  apply (triple_for_fold markdown_index (fun _ x => emit_site ci x)
           (fun _ fs1 => Forall (housed_site fs1) markdown_index)).
  intros [] site Hin. apply emit_site_in_directories.
  - intros fs0 fs1 Hd H. eapply Forall_impl; [exact H|].
    intros s. now apply housed_site_mono.
  - intros fs0 H. exact (proj1 (List.Forall_forall _ _) H _ Hin).
  - exact (proj1 (List.Forall_forall _ _) Hi _ Hin).
Qed.


(** ** The whole run and its directories *)

Lemma triple_exit {A} (P : filesystem -> Prop) code
    (Q : A -> filesystem -> Prop) E :
  triple P (sys_exit code) Q E.
Proof. intros st _. exact I. Qed.

Lemma triple_raise {A} (P : filesystem -> Prop) e
    (Q : A -> filesystem -> Prop) (E : exn -> Prop) :
  E e -> triple P (raise e) Q E.
Proof. intros He st _. exact He. Qed.

(** A fact that does not depend on the file system may be taken out of the
    precondition. *)
Lemma triple_pure {A} (P : filesystem -> Prop) (F : Prop) (m : M A)
    (Q : A -> filesystem -> Prop) E :
  (F -> triple P m Q E) -> triple (fun fs0 => P fs0 /\ F) m Q E.
Proof. intros H st [HP HF]. exact (H HF st HP). Qed.

Ltac still_step :=
  eapply triple_bind;
  [ eapply triple_returns;
    first [ apply ci_print_returns
          | apply emit_returns
          | apply (returns_history (fun _ _ => True)); intros; exact I
          | (apply screenshot_page_chunk; sleeps_accepted) ]
  | intros ? ].

Lemma script_with_interfaces W :
  (forall config,
     open_config W (nth 1 (argv W) "") = Loaded config ->
     Forall with_interfaces (expected_index W (build_sites_dict W config))) ->
  triple (fun _ => True) (script W) (fun _ _ => True) run_error.
Proof.
  intros Hi. unfold script, done_.
  eapply triple_bind with (Q1 := fun _ _ => True).
  { unfold get_auth_token. destruct (environ W !! "AUTH_TOKEN").
    - now apply triple_ret.
    - still_step. apply triple_exit. }
  intros token. still_step.
  eapply triple_bind with (Q1 := fun _ _ => True).
  { unfold check_arguments. destruct (negb _).
    - still_step.
      eapply triple_bind; [|intros ?; apply triple_exit].
      unfold for_each.
      apply (triple_for_fold (argv W)
               (fun _ arg => ci_print arg NL (Some "red"))
               (fun _ _ => True)).
      intros [] arg _. eapply triple_returns, ci_print_returns.
    - now apply triple_ret. }
  intros ?.
  eapply triple_bind with
    (Q1 := fun config _ => open_config W (nth 1 (argv W) "") = Loaded config).
  { unfold load_config. destruct (open_config W _) as [e| | |config].
    - still_step. apply triple_exit.
    - apply triple_raise. now left.
    - apply triple_raise. right. now left.
    - now apply triple_ret. }
  intros config.
  eapply triple_post with
    (P := fun fs0 => True /\ open_config W (nth 1 (argv W) "") = Loaded config)
    (Q := fun _ _ => True) (E := run_error);
    [|cbv beta; auto..].
  apply triple_pure. intros Hc. do 8 still_step.
  eapply triple_bind with
    (Q1 := fun markdown_index fs1 =>
             Forall (housed_site fs1) markdown_index /\
             markdown_index =
             [] ++ expected_index W (build_sites_dict W config)).
  - eapply triple_post with
      (P := fun fs0 => Forall (housed_site fs0) [])
      (E := fun e => True /\ is_mkdir_error e).
    + apply (triple_value
               (fun fs0 => Forall (housed_site fs0) [])
               (capture_sites W (build_sites_dict W config) [])
               (fun markdown_index fs1 =>
                  Forall (housed_site fs1) markdown_index)
               (fun _ => True)
               (fun markdown_index =>
                  markdown_index =
                  [] ++ expected_index W (build_sites_dict W config))
               is_mkdir_error);
        [|apply capture_sites_houses].
      intros st.
      destruct (capture_sites_captured W (build_sites_dict W config) [] st)
        as (evs & _ & _ & H).
      destruct (fst _); [exact (proj1 H)|exact H|exact I].
    + intros fs0 _. constructor.
    + intros idx fs0 H0. exact H0.
    + intros e [_ He]. right. right. now left.
  - intros markdown_index. apply triple_pure. intros ->. cbn [app].
    do 3 still_step.
    eapply triple_bind with (Q1 := fun _ _ => True).
    + eapply triple_post;
        [apply (emit_markdown_in_directories _ _ (Hi _ Hc))
        |auto
        |intros ? ? _; exact I
        |intros e He; right; right; now right].
    + intros ?. still_step. eapply triple_returns, ci_print_returns.
Qed.

(** X29: when every element of the index that the configuration and the
    lookups call for has an interface, no run ends in FileNotFoundError:
    the emitter finds every directory it writes into. *)
Theorem run_with_interfaces_finds_directories W fs0 :
  (forall config,
     open_config W (nth 1 (argv W) "") = Loaded config ->
     Forall with_interfaces (expected_index W (build_sites_dict W config))) ->
  match fst (run W fs0) with
  | Raised (FileNotFoundError _) => False
  | _ => True
  end.
Proof.
  intros Hi. pose proof (script_with_interfaces W Hi (mkState [] fs0) I) as T.
  unfold run. destruct (fst _) as [|e|]; [exact I| |exact I].
  destruct e; try exact I.
  destruct T as [T|[T|[T|T]]]; try discriminate; exact T.
Qed.

(** ** The emitter without the interfaces directory *)

Lemma walk_dirs_fails name cur cs fs0 e :
  walk_dirs name cur cs fs0 = inl e ->
  e = FileNotFoundError name \/ e = NotADirectoryError name.
Proof.
  revert cur. induction cs as [|c cs IH]; intros cur; cbn [walk_dirs];
    [discriminate|].
  destruct (is_dir fs0 (enter cur c)); [apply IH|].
  destruct (is_file fs0 (enter cur c)); intros [= <-]; auto.
Qed.

(** X30: the emitter writes the interfaces README of an element first, so
    without the interfaces directory it stops right there, whatever the
    record holds: it has printed that it is writing the file, the open has
    failed for the missing directory, and nothing has been written. *)
Theorem emitter_stops_without_interfaces_directory ci site text element st :
  let interface_readme_filename :=
    "screenshots/" +:+ ms_fs_name site +:+ "/" +:+ me_fs_name element +:+
    "/interfaces/README.md" in
  is_directory (fs st)
    ("screenshots/" +:+ ms_fs_name site +:+ "/" +:+ me_fs_name element +:+
     "/interfaces/") = false ->
  exists e,
    emit_element ci site text element st =
      (Raised e,
       emitted st [Stdout (ci_print_output
                             ("      Writing " +:+ interface_readme_filename +:+
                              ": ") "" None)]) /\
    (e = FileNotFoundError interface_readme_filename \/
     e = NotADirectoryError interface_readme_filename).
Proof.
  cbv zeta. intros Hd.
  set (d := ("screenshots/" +:+ ms_fs_name site) +:+ "/" +:+
            me_fs_name element).
  assert (Hdir : "screenshots/" +:+ ms_fs_name site +:+ "/" +:+
                 me_fs_name element +:+ "/interfaces/" =
                 (d +:+ "/interfaces") +:+ "/")
    by (unfold d; now rewrite !string_app_assoc).
  assert (Hname : "screenshots/" +:+ ms_fs_name site +:+ "/" +:+
                  me_fs_name element +:+ "/interfaces/README.md" =
                  (d +:+ "/interfaces") +:+ "/README.md")
    by (unfold d; now rewrite !string_app_assoc).
  rewrite Hdir in Hd. unfold emit_element. rewrite Hname.
  set (name := (d +:+ "/interfaces") +:+ "/README.md").
  unfold bind at 1. unfold ci_print at 1, emit at 1. cbn [fst snd].
  unfold bind at 1. unfold write_file, on_fs. cbn [fs trace].
  unfold open_write.
  assert (Hc : components name = components ((d +:+ "/interfaces") +:+ "/")
                                 ++ ["README.md"])
    by (unfold name; now rewrite components_slash, components_directory).
  rewrite Hc, last_snoc, removelast_last.
  unfold is_directory in Hd.
  destruct (walk_dirs name [] _ (fs st)) as [e|p] eqn:Hw.
  - exists e. split; [reflexivity|]. exact (walk_dirs_fails _ _ _ _ _ Hw).
  - rewrite (walk_dirs_mono name ((d +:+ "/interfaces") +:+ "/") _ _
               (fs st) (fs st) p (reflexivity _) Hw) in Hd.
    discriminate.
Qed.

(** ** The further theorems at work on the sample worlds *)






Lemma capture_builds_expected_index_example :
  Sample.index =
  [] ++ expected_index (Sample.world [Sample.lan]) [("S", ["E"])].
Proof.
  apply (capture_builds_expected_index (Sample.world [Sample.lan])
           [("S", ["E"])] [] Sample.start Sample.index
           (snd (capture_sites (Sample.world [Sample.lan]) [("S", ["E"])] []
                   Sample.start))).
  vm_compute; reflexivity.
Defined.

Lemma capture_requests_index_screenshots_example :
  exists evs,
    trace (snd (capture_sites (Sample.world [Sample.lan]) [("S", ["E"])] []
                  Sample.start)) = trace Sample.start ++ evs /\
    screenshot_files evs =
    index_screenshots
      (expected_index (Sample.world [Sample.lan]) [("S", ["E"])]).
Proof.
  apply (capture_requests_index_screenshots (Sample.world [Sample.lan])
           [("S", ["E"])] [] Sample.start Sample.index).
  vm_compute; reflexivity.
Defined.




Lemma complete_run_screenshots_example :
  exists token config,
    environ (Sample.world [Sample.lan]) !! "AUTH_TOKEN" = Some token /\
    length (argv (Sample.world [Sample.lan])) = 2%nat /\
    open_config (Sample.world [Sample.lan])
                (nth 1 (argv (Sample.world [Sample.lan])) "") = Loaded config /\
    screenshot_files
      (trace (snd (run (Sample.world [Sample.lan]) Sample.empty_fs))) =
    run_screenshots (Sample.world [Sample.lan]) config.
Proof.
  apply complete_run_screenshots. vm_compute; reflexivity.
Defined.

Lemma pages_load_with_token_example :
  exists token j,
    environ (Sample.world [Sample.lan]) !! "AUTH_TOKEN" = Some token /\
    (j < 5)%nat /\
    trace (snd (run (Sample.world [Sample.lan]) Sample.empty_fs)) !! j =
      Some (DriverHeaderOverrides token).
Proof.
  apply (pages_load_with_token (Sample.world [Sample.lan]) Sample.empty_fs
           5%nat "https://portal.us.cloudgenix.com/#map").
  vm_compute; reflexivity.
Defined.

Lemma jenkins_without_build_number_example :
  build_block (detect_ci Scenario.jenkins_environ) =
  NL +:+ NL +:+ "Jenkins job id: [None](" +:+ "https://ci.example/job/7" +:+ ")".
Proof.
  apply (jenkins_without_build_number Scenario.jenkins_environ "7").
  - left. vm_compute; reflexivity.
  - vm_compute; reflexivity.
  - vm_compute; reflexivity.
  - vm_compute; reflexivity.
Defined.

Lemma element_readme_embeds_every_page_example :
  exists alt,
    In (img alt "snmp.png") (lines (element_readme no_ci Scenario.element)).
Proof.
  apply element_readme_embeds_every_page. simpl; tauto.
Defined.

Lemma interface_readme_embeds_every_interface_example :
  In (img "1" ("lan 1" +:+ ".png"))
     (lines (interface_readme no_ci Scenario.element)).
Proof.
  apply (interface_readme_embeds_every_interface no_ci Scenario.element
           (mkMdInterface "lan 1" "lan 1")).
  - left. reflexivity.
  - reflexivity.
Defined.

Lemma capture_creates_directories_example :
  Forall (housed_site
            (fs (snd (capture_sites (Sample.world [Sample.lan])
                        [("S", ["E"])] [] Sample.start))))
         Sample.index.
Proof.
  apply (capture_creates_directories (Sample.world [Sample.lan])
           [("S", ["E"])] [] Sample.start).
  - vm_compute; reflexivity.
  - constructor.
Defined.


Lemma run_with_interfaces_finds_directories_example :
  match fst (run (Sample.world [Sample.lan]) Sample.empty_fs) with
  | Raised (FileNotFoundError _) => False
  | _ => True
  end.
Proof.
  apply run_with_interfaces_finds_directories.
  intros config H. vm_compute in H. injection H as <-.
  repeat constructor; vm_compute; discriminate.
Defined.

Lemma emitter_stops_without_interfaces_directory_example :
  exists e,
    emit_element no_ci Scenario.site "" Scenario.element Sample.start =
      (Raised e,
       emitted Sample.start
         [Stdout (ci_print_output
                    ("      Writing " +:+
                     ("screenshots/" +:+ ms_fs_name Scenario.site +:+ "/" +:+
                      me_fs_name Scenario.element +:+ "/interfaces/README.md")
                     +:+ ": ") "" None)]) /\
    (e = FileNotFoundError
           ("screenshots/" +:+ ms_fs_name Scenario.site +:+ "/" +:+
            me_fs_name Scenario.element +:+ "/interfaces/README.md") \/
     e = NotADirectoryError
           ("screenshots/" +:+ ms_fs_name Scenario.site +:+ "/" +:+
            me_fs_name Scenario.element +:+ "/interfaces/README.md")).
Proof.
  apply (emitter_stops_without_interfaces_directory no_ci Scenario.site ""
           Scenario.element Sample.start).
  vm_compute; reflexivity.
Defined.

Lemma run_exits_only_as_designed_example :
  1 = 1 /\
  (environ Sample.world_without_token !! "AUTH_TOKEN" = None \/
   length (argv Sample.world_without_token) <> 2%nat \/
   exists e,
     open_config Sample.world_without_token
       (nth 1 (argv Sample.world_without_token) "") = LoadIOError e).
Proof.
  apply (run_exits_only_as_designed Sample.world_without_token
           Sample.empty_fs 1).
  vm_compute; reflexivity.
Defined.

Lemma site_directory_resolves_example :
  walk_dirs ("screenshots/" +:+ sanitize_filename "../" +:+ "/") []
    (components ("screenshots/" +:+ sanitize_filename "../" +:+ "/"))
    (mkFS {[ ["screenshots"] ]} ∅) =
  inr (if String.eqb (sanitize_filename "../") "" ||
          String.eqb (sanitize_filename "../") "."
       then ["screenshots"]
       else if String.eqb (sanitize_filename "../") ".." then []
       else ["screenshots"; sanitize_filename "../"]).
Proof.
  apply (site_directory_resolves "../" Sample.empty_fs).
  vm_compute; reflexivity.
Defined.
